(** * Agent synchronisation and resource loading: a shallow embedding

    The development follows the TypeScript sources
    - [types.ts]             (AgentResource, ResourceContent),
    - [urlResourceLoader.ts] (class UrlResourceLoader),
    - [repositorySync.ts]    (class RepositorySync),
    - [agentManager.ts]      (class AgentManager).

    Values that cross the JSON boundary are modelled dynamically
    ([JsVal]); asynchronous methods are programs of a small free monad
    ([Prog]) with exceptions, synchronous steps on the process state and
    suspension points for HTTP requests.  The network and the clock are
    the environment: a run is determined by the answers ([net]) that the
    requests receive, in the order in which they are issued.  Calls to
    [console] print and do nothing else, so they are left out; what is
    kept is the evaluation of their arguments where it can throw (the
    conversion of a parsed value to text in a template literal).

    Where a method is declared over a TypeScript type but receives
    values parsed from JSON, statements that need the declared shape
    say so in a hypothesis. *)

From Stdlib Require Import ZArith String Ascii List Bool Lia.
From stdpp Require Import gmap strings list fin_maps.

Local Open Scope string_scope.
Set Warnings "-register-all,-clear-no-such-hyp".

(** ** String primitives of the JavaScript runtime *)

Module JsString.

(** [s.startsWith(p)] *)
Definition startsWith (p s : string) : bool := String.prefix p s.

(** [s.substring(n)] *)
Fixpoint drop (n : nat) (s : string) : string :=
  match n, s with
  | O, _ => s
  | S n', String _ s' => drop n' s'
  | S _, EmptyString => EmptyString
  end.

(** [s.includes(sub)] *)
Fixpoint includes (sub s : string) : bool :=
  startsWith sub s ||
  match s with
  | EmptyString => false
  | String _ s' => includes sub s'
  end.

Definition endsWith (suf s : string) : bool :=
  let n := String.length s in
  let m := String.length suf in
  (m <=? n)%nat && String.eqb (String.substring (n - m) m s) suf.

(** Longest prefix whose characters satisfy [p], and the rest: the
    greedy reading of a character class under [+]. *)
Fixpoint span (p : ascii -> bool) (s : string) : string * string :=
  match s with
  | EmptyString => (EmptyString, EmptyString)
  | String c s' =>
      if p c then let '(a, b) := span p s' in (String c a, b)
      else (EmptyString, s)
  end.

(** Leftmost position at which the anchored matcher [f] succeeds:
    how [String.prototype.match] searches with a non-global regex. *)
Fixpoint search {A} (f : string -> option A) (s : string) : option A :=
  match f s with
  | Some x => Some x
  | None =>
      match s with
      | EmptyString => None
      | String _ s' => search f s'
      end
  end.

(** Consume the literal [lit] at the head of [s]. *)
Definition lit (l s : string) : option string :=
  if startsWith l s then Some (drop (String.length l) s) else None.

Definition is_empty (s : string) : bool :=
  match s with EmptyString => true | _ => false end.

Definition in_range (lo hi c : ascii) : bool :=
  (nat_of_ascii lo <=? nat_of_ascii c)%nat &&
  (nat_of_ascii c <=? nat_of_ascii hi)%nat.

(** The class [[\w-]]. *)
Definition word_or_dash (c : ascii) : bool :=
  in_range "a" "z" c || in_range "A" "Z" c || in_range "0" "9" c
  || Ascii.eqb c "_" || Ascii.eqb c "-".

(** The class [[^/]]. *)
Definition not_slash (c : ascii) : bool := negb (Ascii.eqb c "/").

(** The class [[/:]]. *)
Definition slash_or_colon (c : ascii) : bool :=
  Ascii.eqb c "/" || Ascii.eqb c ":".


(** All characters of [s] are in the class [p]. *)
Fixpoint every (p : ascii -> bool) (s : string) : bool :=
  match s with
  | EmptyString => true
  | String c s' => p c && every p s'
  end.

(** [s] does not go on with a character of the class [p]. *)
Definition stops (p : ascii -> bool) (s : string) : bool :=
  match s with
  | EmptyString => true
  | String c _ => negb (p c)
  end.

End JsString.

(** ** RepositorySync.buildRawUrl *)

Module RawUrl.
Import JsString.

(** [repoUrl.replace(/\.git$/, '')] *)
Definition stripGit (repoUrl : string) : string :=
  if endsWith ".git" repoUrl
  then String.substring 0 (String.length repoUrl - 4) repoUrl
  else repoUrl.

(** One non-empty greedy group of class [p]. *)
Definition group (p : ascii -> bool) (s : string) : option (string * string) :=
  let '(g, rest) := span p s in
  if is_empty g then None else Some (g, rest).

(** Anchored matcher for [host[/:]([\w-]+)\/([\w-]+)]; used with
    github\.com, gitlab\.com and bitbucket\.org. *)
Definition ownerRepoAt (host s : string) : option (string * string) :=
  match lit host s with
  | Some (String c r) =>
      if slash_or_colon c then
        match group word_or_dash r with
        | Some (owner, r1) =>
            match lit "/" r1 with
            | Some r2 =>
                match group word_or_dash r2 with
                | Some (repo, _) => Some (owner, repo)
                | None => None
                end
            | None => None
            end
        | None => None
        end
      else None
  | _ => None
  end.

(** Anchored matcher for
    [dev\.azure\.com\/([^/]+)\/([^/]+)\/_git\/([^/]+)]. *)
Definition azureAt (s : string) : option (string * string * string) :=
  match lit "dev.azure.com/" s with
  | Some r =>
      match group not_slash r with
      | Some (org, r1) =>
          match lit "/" r1 with
          | Some r2 =>
              match group not_slash r2 with
              | Some (project, r3) =>
                  match lit "/_git/" r3 with
                  | Some r4 =>
                      match group not_slash r4 with
                      | Some (repo, _) => Some (org, project, repo)
                      | None => None
                      end
                  | None => None
                  end
              | None => None
              end
          | None => None
          end
      | None => None
      end
  | None => None
  end.

Definition github (cleanUrl branch filePath : string) : option string :=
  if includes "github.com" cleanUrl then
    match search (ownerRepoAt "github.com") cleanUrl with
    | Some (owner, repo) =>
        Some ("https://raw.githubusercontent.com/" +:+ owner +:+ "/" +:+ repo
              +:+ "/" +:+ branch +:+ "/" +:+ filePath)
    | None => None
    end
  else None.

Definition gitlab (cleanUrl branch filePath : string) : option string :=
  if includes "gitlab.com" cleanUrl then
    match search (ownerRepoAt "gitlab.com") cleanUrl with
    | Some (owner, repo) =>
        Some ("https://gitlab.com/" +:+ owner +:+ "/" +:+ repo
              +:+ "/-/raw/" +:+ branch +:+ "/" +:+ filePath)
    | None => None
    end
  else None.

Definition azure (cleanUrl branch filePath : string) : option string :=
  if includes "dev.azure.com" cleanUrl then
    match search azureAt cleanUrl with
    | Some (org, project, repo) =>
        Some ("https://dev.azure.com/" +:+ org +:+ "/" +:+ project
              +:+ "/_apis/git/repositories/" +:+ repo
              +:+ "/items?path=/" +:+ filePath
              +:+ "&version=GB" +:+ branch +:+ "&api-version=7.0")
    | None => None
    end
  else None.

Definition bitbucket (cleanUrl branch filePath : string) : option string :=
  if includes "bitbucket.org" cleanUrl then
    match search (ownerRepoAt "bitbucket.org") cleanUrl with
    | Some (owner, repo) =>
        Some ("https://bitbucket.org/" +:+ owner +:+ "/" +:+ repo
              +:+ "/raw/" +:+ branch +:+ "/" +:+ filePath)
    | None => None
    end
  else None.

(** The four conventions are tried in source order; the first that
    returns wins, otherwise the generic form. *)
Definition buildRawUrl (repoUrl branch filePath : string) : string :=
  let cleanUrl := stripGit repoUrl in
  match github cleanUrl branch filePath with
  | Some u => u
  | None =>
  match gitlab cleanUrl branch filePath with
  | Some u => u
  | None =>
  match azure cleanUrl branch filePath with
  | Some u => u
  | None =>
  match bitbucket cleanUrl branch filePath with
  | Some u => u
  | None => cleanUrl +:+ "/raw/" +:+ branch +:+ "/" +:+ filePath
  end end end end.

End RawUrl.

(** ** Dynamic values

    Manifest entries arrive through [JSON.parse] and are inspected with
    [typeof], truthiness tests and property reads, so agents are kept as
    untyped values.  Numbers are integers here: only their type and
    their truthiness are ever observed. *)

Inductive JsVal : Type :=
| JUndefined
| JNull
| JBool (b : bool)
| JNum (n : Z)
| JStr (s : string)
| JArr (items : list JsVal)
| JObj (fields : list (string * JsVal)).

Inductive JsError : Type :=
| Error (msg : string)
| TypeError (msg : string)
| AxiosError (msg : string).

(** [error.message] *)
Definition message (e : JsError) : string :=
  match e with Error m | TypeError m | AxiosError m => m end.

(** Result of evaluating code that may throw. *)
Inductive Outcome (A : Type) : Type :=
| Returned (a : A)
| Raised (e : JsError).
Arguments Returned {A} a.
Arguments Raised {A} e.

Module Js.

(** [typeof v === 'string'] *)
Definition is_string (v : JsVal) : bool :=
  match v with JStr _ => true | _ => false end.

(** ToBoolean *)
Definition truthy (v : JsVal) : bool :=
  match v with
  | JUndefined | JNull => false
  | JBool b => b
  | JNum n => negb (n =? 0)%Z
  | JStr s => negb (JsString.is_empty s)
  | JArr _ | JObj _ => true
  end.

Fixpoint assoc (k : string) (fs : list (string * JsVal)) : option JsVal :=
  match fs with
  | [] => None
  | (k', v) :: fs' => if String.eqb k k' then Some v else assoc k fs'
  end.

(** [v.k] for the property names used in this code base ([id],
    [name], [prompt], [resources], [templates], [type], [url],
    [agents], [version]): none of them is defined on the prototypes of
    strings, numbers, booleans or arrays, so the read yields
    [undefined] there; on [null] and [undefined] it throws. *)
Definition field (v : JsVal) (k : string) : JsVal :=
  match v with
  | JObj fs => default JUndefined (assoc k fs)
  | _ => JUndefined
  end.

Definition nullish (v : JsVal) : bool :=
  match v with JUndefined | JNull => true | _ => false end.

Definition get (v : JsVal) (k : string) : Outcome JsVal :=
  if nullish v
  then Raised (TypeError ("Cannot read properties of null (reading '" +:+ k +:+ "')"))
  else Returned (field v k).

(** [v.length] of a value that is neither [null] nor [undefined]:
    strings and arrays have one, an object has the property it was
    parsed with, if any. *)
Definition lengthOf (v : JsVal) : JsVal :=
  match v with
  | JArr items => JNum (Z.of_nat (length items))
  | JStr s => JNum (Z.of_nat (String.length s))
  | JObj fs => default JUndefined (assoc "length" fs)
  | _ => JUndefined
  end.

(** Can the value be converted to a string?  A parsed value has no
    function among its properties.  An object is converted by the
    [toString] it inherits unless a property of its own hides it: then
    neither that property nor [valueOf] yields a primitive, and the
    conversion throws.  An array is joined, which converts its members
    ([null] and [undefined] to the empty string). *)
Fixpoint printable (v : JsVal) : bool :=
  match v with
  | JObj fs =>
      match assoc "toString" fs with
      | Some _ => false
      | None => true
      end
  | JArr items => forallb printable items
  | _ => true
  end.

(** [`${v}`] in an argument of a [console] call: the text is printed
    and gone, what remains is whether the conversion throws. *)
Definition interpolate (v : JsVal) : Outcome unit :=
  if printable v then Returned tt
  else Raised (TypeError "Cannot convert object to primitive value").

(** A string other than the empty one. *)
Definition nonEmptyString (v : JsVal) : bool :=
  match v with
  | JStr s => negb (JsString.is_empty s)
  | _ => false
  end.

(** [o.k = x] on an object: an existing property keeps its place. *)
Fixpoint assign (k : string) (x : JsVal) (fs : list (string * JsVal))
  : list (string * JsVal) :=
  match fs with
  | [] => [(k, x)]
  | (k', v) :: fs' =>
      if String.eqb k k' then (k', x) :: fs' else (k', v) :: assign k x fs'
  end.

Definition set (v : JsVal) (k : string) (x : JsVal) : JsVal :=
  match v with
  | JObj fs => JObj (assign k x fs)
  | _ => v
  end.

Definition bind {A B} (o : Outcome A) (f : A -> Outcome B) : Outcome B :=
  match o with
  | Returned a => f a
  | Raised e => Raised e
  end.

(** [xs.filter(p)] where the callback may throw. *)
Fixpoint filter {A} (p : A -> Outcome bool) (xs : list A) : Outcome (list A) :=
  match xs with
  | [] => Returned []
  | x :: xs' =>
      bind (p x) (fun b =>
      bind (filter p xs') (fun r =>
      Returned (if b then x :: r else r)))
  end.

End Js.

#[global] Instance Outcome_ret : MRet Outcome := @Returned.
#[global] Instance Outcome_bind : MBind Outcome := fun A B f o => Js.bind o f.

(** ** Insertion-ordered maps ([Map] objects iterated in order) *)

Module JsMap.
Section Ops.
Context {V : Type}.

Fixpoint get (k : string) (m : list (string * V)) : option V :=
  match m with
  | [] => None
  | (k', v) :: m' => if String.eqb k k' then Some v else get k m'
  end.

Definition has (k : string) (m : list (string * V)) : bool :=
  match get k m with Some _ => true | None => false end.

(** [m.set(k, v)]: a present key keeps its position, a new one goes
    last. *)
Fixpoint set (k : string) (v : V) (m : list (string * V)) : list (string * V) :=
  match m with
  | [] => [(k, v)]
  | (k', v') :: m' =>
      if String.eqb k k' then (k', v) :: m' else (k', v') :: set k v m'
  end.

Definition values (m : list (string * V)) : list V := map snd m.
Definition keys (m : list (string * V)) : list string := map fst m.

(** [m.delete(k)], the map it leaves. *)
Fixpoint delete (k : string) (m : list (string * V)) : list (string * V) :=
  match m with
  | [] => []
  | (k', v') :: m' =>
      if String.eqb k k' then m' else (k', v') :: delete k m'
  end.

End Ops.
End JsMap.

(** ** types.ts *)

Module AgentResource.
Inductive kind := url_ | file_ | api_.

Record t := {
  type : kind;
  url : string;
  name : option string;
  description : option string;
  headers : option (list (string * string));
  cacheDuration : option Z   (* in milliseconds *)
}.
End AgentResource.

Module ResourceContent.
Record t := {
  url : string;
  content : string;
  loadedAt : Z;
  error : option string
}.
End ResourceContent.

(** ** The process state and its environment *)

Module CacheEntry.
Record t := { content : string; timestamp : Z }.
End CacheEntry.

(** An outgoing [axios.get(url, {timeout, headers})]. *)
Record Request := {
  req_url : string;
  req_timeout : Z;
  req_headers : list (string * string)
}.

Inductive Response :=
| Ok (data : JsVal)          (* 2xx: [response.data] *)
| Failed (msg : string).     (* timeout, non-2xx status, network error *)

Record Reply := { latency : N; response : Response }.

Record World := {
  clock : Z;                                  (* Date.now() *)
  net : nat -> Request -> Reply;              (* answer to the n-th request *)
  requests : list Request;                    (* requests issued so far *)
  cache : gmap string CacheEntry.t;           (* UrlResourceLoader.cache *)
  agents : list (string * JsVal);             (* AgentManager.agents *)
  saved_agents : option (list JsVal);         (* globalState 'agents' *)
  saved_lastSync : option Z;                  (* globalState 'lastSync' *)
  repositoryUrl : option string;              (* configuration *)
  branch : option string
}.

Definition with_clock (t : Z) (w : World) : World :=
  {| clock := t; net := net w; requests := requests w; cache := cache w;
     agents := agents w; saved_agents := saved_agents w;
     saved_lastSync := saved_lastSync w;
     repositoryUrl := repositoryUrl w; branch := branch w |}.

Definition with_requests (rs : list Request) (w : World) : World :=
  {| clock := clock w; net := net w; requests := rs; cache := cache w;
     agents := agents w; saved_agents := saved_agents w;
     saved_lastSync := saved_lastSync w;
     repositoryUrl := repositoryUrl w; branch := branch w |}.

Definition with_cache (c : gmap string CacheEntry.t) (w : World) : World :=
  {| clock := clock w; net := net w; requests := requests w; cache := c;
     agents := agents w; saved_agents := saved_agents w;
     saved_lastSync := saved_lastSync w;
     repositoryUrl := repositoryUrl w; branch := branch w |}.

Definition with_agents (a : list (string * JsVal)) (w : World) : World :=
  {| clock := clock w; net := net w; requests := requests w; cache := cache w;
     agents := a; saved_agents := saved_agents w;
     saved_lastSync := saved_lastSync w;
     repositoryUrl := repositoryUrl w; branch := branch w |}.

Definition with_saved_agents (a : option (list JsVal)) (w : World) : World :=
  {| clock := clock w; net := net w; requests := requests w; cache := cache w;
     agents := agents w; saved_agents := a;
     saved_lastSync := saved_lastSync w;
     repositoryUrl := repositoryUrl w; branch := branch w |}.

Definition with_saved_lastSync (t : option Z) (w : World) : World :=
  {| clock := clock w; net := net w; requests := requests w; cache := cache w;
     agents := agents w; saved_agents := saved_agents w;
     saved_lastSync := t;
     repositoryUrl := repositoryUrl w; branch := branch w |}.

(** ** Asynchronous programs *)

Inductive Prog (A : Type) : Type :=
| Ret (a : A)
| Throw (e : JsError)
| Sync {B : Type} (op : World -> B * World) (k : B -> Prog A)
| Await (rq : Request) (k : Reply -> Prog A).
Arguments Ret {A} a.
Arguments Throw {A} e.
Arguments Sync {A B} op k.
Arguments Await {A} rq k.

Module Async.

Fixpoint bind {A B} (p : Prog A) (f : A -> Prog B) : Prog B :=
  match p with
  | Ret a => f a
  | Throw e => Throw e
  | Sync op k => Sync op (fun b => bind (k b) f)
  | Await rq k => Await rq (fun r => bind (k r) f)
  end.

(** [try { p } catch (error) { h error }] *)
Fixpoint try_catch {A} (p : Prog A) (h : JsError -> Prog A) : Prog A :=
  match p with
  | Ret a => Ret a
  | Throw e => h e
  | Sync op k => Sync op (fun b => try_catch (k b) h)
  | Await rq k => Await rq (fun r => try_catch (k r) h)
  end.

(** [p] inside a [try], with the way it ended as a value: for a
    handler that depends on how far the block has got. *)
Definition settle {A} (p : Prog A) : Prog (Outcome A) :=
  try_catch (bind p (fun a => Ret (Returned a))) (fun e => Ret (Raised e)).

Definition read {B} (f : World -> B) : Prog B :=
  Sync (fun w => (f w, w)) Ret.

Definition write (f : World -> World) : Prog unit :=
  Sync (fun w => (tt, f w)) Ret.

(** Lift synchronous code that may throw. *)
Definition lift {A} (o : Outcome A) : Prog A :=
  match o with
  | Returned a => Ret a
  | Raised e => Throw e
  end.

(** [Date.now()] *)
Definition now : Prog Z := read clock.

(** [await axios.get(...)]: the promise rejects on any failure. *)
Definition axios_get (rq : Request) : Prog JsVal :=
  Await rq (fun r =>
    match response r with
    | Ok data => Ret data
    | Failed msg => Throw (AxiosError msg)
    end).

(** The request leaves; its reply is the environment's answer to the
    request with this sequence number. *)
Definition reply_of (w : World) (rq : Request) : Reply :=
  net w (length (requests w)) rq.

Definition issue (rq : Request) (w : World) : World :=
  with_requests (requests w ++ [rq]) w.

(** Running a program on its own: every [await] blocks until the reply
    is there, the clock advancing by the reply's latency. *)
Fixpoint run {A} (p : Prog A) (w : World) : Outcome A * World :=
  match p with
  | Ret a => (Returned a, w)
  | Throw e => (Raised e, w)
  | Sync op k => let '(b, w') := op w in run (k b) w'
  | Await rq k =>
      let r := reply_of w rq in
      run (k r) (with_clock (clock w + Z.of_N (latency r)) (issue rq w))
  end.

(** *** Promise.all over a batch

    Every program of the batch is started in order: it runs up to its
    first [await], where its request leaves at the current time.  The
    suspended ones are then resumed in order of arrival of their
    replies (the leftmost first among equal arrival times), each
    continuation running at its arrival time.  The programs batched in
    this code base await once, so a resumed continuation runs to its
    end. *)

Inductive Task (A : Type) : Type :=
| Settled (o : Outcome A)
| Waiting (arrival : Z) (r : Reply) (k : Reply -> Prog A).
Arguments Settled {A} o.
Arguments Waiting {A} arrival r k.

Fixpoint start {A} (p : Prog A) (w : World) : Task A * World :=
  match p with
  | Ret a => (Settled (Returned a), w)
  | Throw e => (Settled (Raised e), w)
  | Sync op k => let '(b, w') := op w in start (k b) w'
  | Await rq k =>
      let r := reply_of w rq in
      (Waiting (clock w + Z.of_N (latency r)) r k, issue rq w)
  end.

Fixpoint start_all {A} (ps : list (Prog A)) (w : World)
  : list (Task A) * World :=
  match ps with
  | [] => ([], w)
  | p :: ps' =>
      let '(t, w1) := start p w in
      let '(ts, w2) := start_all ps' w1 in
      (t :: ts, w2)
  end.

(** Position and arrival time of the reply that comes in first. *)
Fixpoint next_due {A} (ts : list (Task A)) : option (nat * Z) :=
  match ts with
  | [] => None
  | t :: ts' =>
      let rest := (fun '(i, a) => (S i, a)) <$> next_due ts' in
      match t with
      | Settled _ => rest
      | Waiting a _ _ =>
          match rest with
          | Some (j, b) => if (b <? a)%Z then Some (j, b) else Some (O, a)
          | None => Some (O, a)
          end
      end
  end.

Definition resume {A} (t : Task A) (w : World) : Task A * World :=
  match t with
  | Settled o => (Settled o, w)
  | Waiting a r k =>
      let '(o, w') := run (k r) (with_clock (Z.max (clock w) a) w) in
      (Settled o, w')
  end.

Fixpoint drain {A} (fuel : nat) (ts : list (Task A)) (w : World)
  : list (Task A) * World :=
  match fuel with
  | O => (ts, w)
  | S fuel' =>
      match next_due ts with
      | None => (ts, w)
      | Some (i, _) =>
          match ts !! i with
          | Some t =>
              let '(t', w') := resume t w in
              drain fuel' (<[i := t']> ts) w'
          | None => (ts, w)
          end
      end
  end.

(** The values of a settled batch, or its first rejection.  After
    [drain] no task of the batch is left waiting. *)
Fixpoint collect {A} (ts : list (Task A)) : Outcome (list A) :=
  match ts with
  | [] => Returned []
  | Settled (Returned a) :: ts' =>
      match collect ts' with
      | Returned l => Returned (a :: l)
      | Raised e => Raised e
      end
  | Settled (Raised e) :: _ => Raised e
  | Waiting _ _ _ :: _ => Raised (Error "pending")
  end.

Definition all {A} (ps : list (Prog A)) : Prog (list A) :=
  Sync (fun w =>
          let '(ts, w1) := start_all ps w in
          let '(ts', w2) := drain (length ts) ts w1 in
          (collect ts', w2))
       lift.

End Async.

#[global] Instance Prog_ret : MRet Prog := @Ret.
#[global] Instance Prog_bind : MBind Prog := fun A B f p => Async.bind p f.

(** ** JSON.stringify on a string-to-string record *)

Module Json.

Definition dquote : ascii := ascii_of_nat 34.
Definition backslash : ascii := ascii_of_nat 92.

Definition hex_digit (n : nat) : ascii :=
  nth n ["0"; "1"; "2"; "3"; "4"; "5"; "6"; "7"; "8"; "9";
         "a"; "b"; "c"; "d"; "e"; "f"]%char "0"%char.

Definition str1 (c : ascii) : string := String c EmptyString.

Definition escape (c : ascii) : string :=
  let n := nat_of_ascii c in
  if (n =? 34)%nat then String backslash (str1 dquote)
  else if (n =? 92)%nat then String backslash (str1 backslash)
  else if (n =? 8)%nat then String backslash "b"
  else if (n =? 12)%nat then String backslash "f"
  else if (n =? 10)%nat then String backslash "n"
  else if (n =? 13)%nat then String backslash "r"
  else if (n =? 9)%nat then String backslash "t"
  else if (n <? 32)%nat then
    String backslash ("u00" +:+ String (hex_digit (n / 16)) (str1 (hex_digit (n mod 16))))
  else str1 c.

Fixpoint escape_all (s : string) : string :=
  match s with
  | EmptyString => EmptyString
  | String c s' => escape c +:+ escape_all s'
  end.

Definition quote (s : string) : string :=
  String dquote (escape_all s +:+ str1 dquote).

Definition member (kv : string * string) : string :=
  quote kv.1 +:+ ":" +:+ quote kv.2.

Fixpoint join (sep : string) (l : list string) : string :=
  match l with
  | [] => ""
  | [x] => x
  | x :: l' => x +:+ sep +:+ join sep l'
  end.

(** [JSON.stringify(record)], the properties in enumeration order. *)
Definition stringify (record : list (string * string)) : string :=
  "{" +:+ join "," (member <$> record) +:+ "}".


(** Reading one character back from its escaped form; [None] at a
    closing quote.  Used to show that [stringify] loses nothing. *)
Definition hex_value (c : ascii) : nat :=
  let n := nat_of_ascii c in
  if (n <? 58)%nat then n - 48 else n - 87.

Definition unescape (s : string) : option (ascii * string) :=
  match s with
  | EmptyString => None
  | String c r =>
      if Ascii.eqb c dquote then None
      else if Ascii.eqb c backslash then
        match r with
        | String e r' =>
            if Ascii.eqb e "u" then
              match r' with
              | String _ (String _ (String h (String l r''))) =>
                  Some (ascii_of_nat (16 * hex_value h + hex_value l), r'')
              | _ => None
              end
            else if Ascii.eqb e "b" then Some (ascii_of_nat 8, r')
            else if Ascii.eqb e "f" then Some (ascii_of_nat 12, r')
            else if Ascii.eqb e "n" then Some (ascii_of_nat 10, r')
            else if Ascii.eqb e "r" then Some (ascii_of_nat 13, r')
            else if Ascii.eqb e "t" then Some (ascii_of_nat 9, r')
            else Some (e, r')
        | EmptyString => None
        end
      else Some (c, r)
  end.


(** What follows the first member in the text of a record. *)
Definition membersTail (l : list (string * string)) : string :=
  match l with
  | [] => "}"
  | _ => "," +:+ join "," (member <$> l) +:+ "}"
  end.

End Json.

(** Conversions of response bodies that are not strings are left to the
    runtime: [JSON.stringify(data, null, 2)], which may throw, and
    [String(data)]. *)
Class JsRuntime := {
  JSON_stringify_indented : JsVal -> Outcome string;
  String_of : JsVal -> string
}.

(** ** urlResourceLoader.ts *)

Module UrlResourceLoader.
Import AgentResource.

Section Loader.
Context `{JsRuntime}.

Definition defaultCacheDuration : Z := 3600000.

(** [resource.cacheDuration || this.defaultCacheDuration] *)
Definition lifetime (resource : AgentResource.t) : Z :=
  match cacheDuration resource with
  | Some d => if (d =? 0)%Z then defaultCacheDuration else d
  | None => defaultCacheDuration
  end.

Definition processContent (data : JsVal) (type : kind) : string :=
  match data with
  | JStr s => s
  | _ =>
      match type with
      | api_ | url_ =>
          match JSON_stringify_indented data with
          | Returned s => s
          | Raised _ => String_of data
          end
      | file_ => String_of data
      end
  end.

Definition getAcceptHeader (type : kind) : string :=
  match type with
  | api_ => "application/json, application/xml, text/plain"
  | file_ => "text/plain, text/html, text/markdown"
  | url_ => "*/*"
  end.

Definition getCacheKey (resource : AgentResource.t) : string :=
  let headers :=
    match headers resource with
    | Some h => Json.stringify h
    | None => ""
    end in
  url resource +:+ "::" +:+ headers.

(** [{ 'User-Agent': .., 'Accept': .., ...resource.headers }] *)
Definition requestHeaders (resource : AgentResource.t)
  : list (string * string) :=
  fold_left (fun m kv => JsMap.set kv.1 kv.2 m)
    (default [] (headers resource))
    [("User-Agent", "VSCode-Cloud-Team-Copilot-Agent");
     ("Accept", getAcceptHeader (type resource))].

Definition request (resource : AgentResource.t) : Request :=
  {| req_url := url resource;
     req_timeout := 15000;
     req_headers := requestHeaders resource |}.

(** The world after the request for [resource] has left and its reply
    has come in. *)
Definition answered (resource : AgentResource.t) (w : World) : World :=
  with_clock (clock w + Z.of_N (latency (Async.reply_of w (request resource))))
             (Async.issue (request resource) w).

(** Is the entry younger than the lifetime, at time [now]? *)
Definition fresh (now duration : Z) (cached : option CacheEntry.t) : bool :=
  match cached with
  | Some c => (now - CacheEntry.timestamp c <? duration)%Z
  | None => false
  end.

(** The hit of lines 31-37. *)
Definition cacheHit (resource : AgentResource.t) (c : CacheEntry.t)
  : ResourceContent.t :=
  {| ResourceContent.url := url resource;
     ResourceContent.content := CacheEntry.content c;
     ResourceContent.loadedAt := CacheEntry.timestamp c;
     ResourceContent.error := None |}.

(** The [try] block of [loadResource]. *)
Definition fetchFresh (resource : AgentResource.t)
  : Prog ResourceContent.t :=
  data ← Async.axios_get (request resource);
  let content := processContent data (type resource) in
  stamp ← Async.now;
  _ ← Async.write (fun w =>
        with_cache (<[getCacheKey resource :=
                       {| CacheEntry.content := content;
                          CacheEntry.timestamp := stamp |}]> (cache w)) w);
  loaded ← Async.now;
  Ret {| ResourceContent.url := url resource;
         ResourceContent.content := content;
         ResourceContent.loadedAt := loaded;
         ResourceContent.error := None |}.

(** The [catch] block of [loadResource]. *)
Definition fallback (resource : AgentResource.t) (error : JsError)
  : Prog ResourceContent.t :=
  cached ← Async.read (fun w => cache w !! getCacheKey resource);
  match cached with
  | Some c =>
      Ret {| ResourceContent.url := url resource;
             ResourceContent.content := CacheEntry.content c;
             ResourceContent.loadedAt := CacheEntry.timestamp c;
             ResourceContent.error := Some (message error) |}
  | None =>
      loaded ← Async.now;
      Ret {| ResourceContent.url := url resource;
             ResourceContent.content := "";
             ResourceContent.loadedAt := loaded;
             ResourceContent.error := Some (message error) |}
  end.

Definition loadResource (resource : AgentResource.t)
  : Prog ResourceContent.t :=
  let cacheKey := getCacheKey resource in
  let cacheDuration := lifetime resource in
  cached ← Async.read (fun w => cache w !! cacheKey);
  now ← Async.now;
  match cached with
  | Some c =>
      if (now - CacheEntry.timestamp c <? cacheDuration)%Z
      then Ret (cacheHit resource c)
      else Async.try_catch (fetchFresh resource) (fallback resource)
  | None => Async.try_catch (fetchFresh resource) (fallback resource)
  end.


(** [loadResources]: one [loadResource] after the other. *)
Fixpoint loadResources (resources : list AgentResource.t)
  : Prog (list ResourceContent.t) :=
  match resources with
  | [] => Ret []
  | resource :: rest =>
      content ← loadResource resource;
      loaded ← loadResources rest;
      Ret (content :: loaded)
  end.

Definition clearCache : Prog unit :=
  Async.write (with_cache ∅).

(** The loop deletes the entries with
    [now - value.timestamp > this.defaultCacheDuration]. *)
Definition expired (now : Z) (value : CacheEntry.t) : Prop :=
  (now - CacheEntry.timestamp value > defaultCacheDuration)%Z.

#[global] Instance expired_dec now value : Decision (expired now value) :=
  Z.gt_dec _ _.

Definition clearExpiredCache : Prog unit :=
  now ← Async.now;
  Async.write (fun w =>
    with_cache (filter (fun kv => ¬ expired now kv.2) (cache w)) w).

(** The sweep as section 4.1 of the specification words it, with a
    maximum age chosen by the caller: entries whose age exceeds [maxAge]
    go, the others stay. *)
Definition clearExpiredSpec (maxAge now : Z) (c : gmap string CacheEntry.t)
  : gmap string CacheEntry.t :=
  filter (fun kv => (now - CacheEntry.timestamp kv.2 <= maxAge)%Z) c.

(** [allResources.push(...resources)] for every owner in turn. *)
Definition allResources (agentResources : list (string * list AgentResource.t))
  : list AgentResource.t :=
  concat (JsMap.values agentResources).

(** The deduplicating loop over [allResources]. *)
Definition uniqueResources (all : list AgentResource.t)
  : list (string * AgentResource.t) :=
  fold_left
    (fun unique resource =>
       if JsMap.has (url resource) unique then unique
       else JsMap.set (url resource) resource unique)
    all [].

Definition batchSize : nat := 5.

(** [arr.slice(i, j)] *)
Definition slice {A} (i j : nat) (arr : list A) : list A :=
  take (j - i) (drop i arr).

(** [for (let i = 0; i < resourceArray.length; i += batchSize)];
    [fuel] bounds the number of iterations. *)
Fixpoint preloadLoop (fuel i : nat) (resourceArray : list AgentResource.t)
  : Prog unit :=
  match fuel with
  | O => Ret tt
  | S fuel' =>
      if (i <? length resourceArray)%nat then
        let batch := slice i (i + batchSize) resourceArray in
        _ ← Async.all (loadResource <$> batch);
        preloadLoop fuel' (i + batchSize) resourceArray
      else Ret tt
  end.

Definition preloadResources
  (agentResources : list (string * list AgentResource.t)) : Prog unit :=
  let resourceArray :=
    JsMap.values (uniqueResources (allResources agentResources)) in
  preloadLoop (length resourceArray) 0 resourceArray.

End Loader.
End UrlResourceLoader.

(** ** repositorySync.ts *)

Module RepositorySync.

(** [validateAgent(agent: any)] *)
Definition validateAgent (agent : JsVal) : Outcome bool :=
  id ← Js.get agent "id";
  if negb (Js.truthy id) then Returned false else
  name ← Js.get agent "name";
  if negb (Js.truthy name) then Returned false else
  prompt ← Js.get agent "prompt";
  if negb (Js.truthy prompt) then Returned false else
  if negb (Js.is_string id) || negb (Js.is_string name)
     || negb (Js.is_string prompt)
  then Returned false
  else Returned true.

(** [v.startsWith('file:')]: a method of strings only. *)
Definition isFileRef (v : JsVal) : Outcome bool :=
  match v with
  | JStr s => Returned (JsString.startsWith "file:" s)
  | JUndefined | JNull =>
      Raised (TypeError "Cannot read properties of null (reading 'startsWith')")
  | _ => Raised (TypeError "startsWith is not a function")
  end.

(** The template entries that name a file. *)
Definition isRef (v : JsVal) : bool :=
  match v with
  | JStr s => JsString.startsWith "file:" s
  | _ => false
  end.


(** [v.substring(5)] of a string. *)
Definition fileName (v : JsVal) : string :=
  match v with
  | JStr s => JsString.drop 5 s
  | _ => ""
  end.

Definition fileRequest (fileUrl : string) : Request :=
  {| req_url := fileUrl;
     req_timeout := 5000;
     req_headers := [("Accept", "text/plain"); ("Cache-Control", "no-cache")] |}.

Definition templateRequest (repoUrl branch : string) (template : JsVal) : Request :=
  fileRequest (RawUrl.buildRawUrl repoUrl branch ("templates/" +:+ fileName template)).

Definition promptRequest (repoUrl branch : string) (prompt : JsVal) : Request :=
  fileRequest (RawUrl.buildRawUrl repoUrl branch ("agents/" +:+ fileName prompt)).


(** Lines 103-116: the prompt of a file reference is replaced by the
    body of that file; a failing fetch throws. *)
Definition resolvePrompt (agent : JsVal) (repoUrl branch : string) : Prog JsVal :=
  prompt ← Async.lift (Js.get agent "prompt");
  if Js.truthy prompt then
    isRef ← Async.lift (isFileRef prompt);
    if isRef : bool then
      data ← Async.axios_get (promptRequest repoUrl branch prompt);
      Ret (Js.set agent "prompt" data)
    else Ret agent
  else Ret agent.

(** Lines 122-143: the loop over [agent.templates]. *)
Fixpoint resolveTemplates (templates processedTemplates : list JsVal)
  (repoUrl branch : string) : Prog (list JsVal) :=
  match templates with
  | [] => Ret processedTemplates
  | template :: rest =>
      isRef ← Async.lift (isFileRef template);
      entry ←
        (if isRef : bool then
           Async.try_catch
             (Async.axios_get (templateRequest repoUrl branch template))
             (fun _ => Ret template)
         else Ret template);
      resolveTemplates rest (processedTemplates ++ [entry]) repoUrl branch
  end.

(** Lines 119-146. *)
Definition processTemplates (agent : JsVal) (repoUrl branch : string) : Prog JsVal :=
  templates ← Async.lift (Js.get agent "templates");
  match templates with
  | JArr items =>
      processedTemplates ← resolveTemplates items [] repoUrl branch;
      Ret (Js.set agent "templates" (JArr processedTemplates))
  | _ => Ret agent
  end.

(** The [catch] block of the loop body, lines 149-153: the log line
    reads [agent.id] and converts it to text, then the agent is pushed
    as it is.  An exception here leaves [processAgentFiles]. *)
Definition keepUnprocessed (agent : JsVal) (error : JsError) : Prog JsVal :=
  id ← Async.lift (Js.get agent "id");
  _ ← Async.lift (Js.interpolate id);
  Ret agent.

(** The body of the loop of [processAgentFiles].  The agent is mutated
    in place, and the one [catch] of the loop body sees it as it is
    when the exception arrives: untouched when resolving the prompt
    threw, with its new prompt when the template loop threw.  Hence the
    [try] block in two halves. *)
Definition processAgent (agent : JsVal) (repoUrl branch : string) : Prog JsVal :=
  first ← Async.settle (resolvePrompt agent repoUrl branch);
  match first with
  | Raised error => keepUnprocessed agent error
  | Returned agent1 =>
      Async.try_catch (processTemplates agent1 repoUrl branch)
                      (keepUnprocessed agent1)
  end.

(** What the [catch] block needs of an agent: its id can be read and
    converted to text.  The agents that [fetchAgents] passes on have a
    string as id. *)
Definition nameable (agent : JsVal) : bool :=
  negb (Js.nullish agent) && Js.printable (Js.field agent "id").

Fixpoint processAgentFiles (agents : list JsVal) (repoUrl branch : string)
  : Prog (list JsVal) :=
  match agents with
  | [] => Ret []
  | agent :: rest =>
      processed ← processAgent agent repoUrl branch;
      others ← processAgentFiles rest repoUrl branch;
      Ret (processed :: others)
  end.

Definition manifestRequest (configUrl : string) : Request :=
  {| req_url := configUrl;
     req_timeout := 10000;
     req_headers := [("Accept", "application/json"); ("Cache-Control", "no-cache")] |}.

(** [xs.filter(...)]: defined on arrays. *)
Definition filterValid (agents : JsVal) : Outcome (list JsVal) :=
  match agents with
  | JArr items => Js.filter validateAgent items
  | _ => Raised (TypeError "agentConfig.agents.filter is not a function")
  end.

(** Lines 60-70, between the answer and the files: the test of the
    format, the log line, which converts [agents.length] and [version]
    to text, and the filter. *)
Definition validEntries (data : JsVal) : Outcome (list JsVal) :=
  entries ←
    (if negb (Js.truthy data) then Raised (Error "Invalid agent configuration format")
     else agents ← Js.get data "agents";
          if negb (Js.truthy agents)
          then Raised (Error "Invalid agent configuration format")
          else Returned agents);
  _ ← Js.interpolate (Js.lengthOf entries);
  version ← Js.get data "version";
  _ ← Js.interpolate version;
  filterValid entries.

(** The [try] block of [fetchAgents]. *)
Definition fetchManifest (repoUrl branch : string) : Prog (list JsVal) :=
  let configUrl := RawUrl.buildRawUrl repoUrl branch "agents.json" in
  data ← Async.axios_get (manifestRequest configUrl);
  validAgents ← Async.lift (validEntries data);
  processedAgents ← processAgentFiles validAgents repoUrl branch;
  _ ← Async.write (fun w => with_saved_lastSync (Some (clock w)) w);
  Ret processedAgents.

(** The [catch] block of [fetchAgents]. *)
Definition useCached (error : JsError) : Prog (list JsVal) :=
  cachedAgents ← Async.read (fun w => default [] (saved_agents w));
  if (0 <? length cachedAgents)%nat then Ret cachedAgents
  else Throw error.

(** [config.get<string>('branch') || 'master'] *)
Definition configuredBranch (w : World) : string :=
  match branch w with
  | Some b => if JsString.is_empty b then "master" else b
  | None => "master"
  end.

Definition fetchAgents : Prog (list JsVal) :=
  repoUrl ← Async.read repositoryUrl;
  branch ← Async.read configuredBranch;
  match repoUrl with
  | None => Ret []
  | Some repoUrl =>
      if JsString.is_empty repoUrl then Ret []
      else Async.try_catch (fetchManifest repoUrl branch) useCached
  end.

End RepositorySync.

(** ** agentManager.ts *)

Module AgentManager.

Definition resourceTypes : list string := ["url"; "file"; "api"].

Definition validateResource (resource : JsVal) : Outcome bool :=
  type ← Js.get resource "type";
  if negb (Js.truthy type) then Returned false else
  url ← Js.get resource "url";
  if negb (Js.truthy url) then Returned false else
  if negb (Js.is_string type) || negb (Js.is_string url) then Returned false else
  match type with
  | JStr t => Returned (existsb (String.eqb t) resourceTypes)
  | _ => Returned false
  end.

(** The loop over [agent.resources]: the first invalid one decides. *)
Fixpoint validateResources (resources : list JsVal) : Outcome bool :=
  match resources with
  | [] => Returned true
  | resource :: rest =>
      ok ← validateResource resource;
      if ok : bool then validateResources rest else Returned false
  end.

Definition validateAgent (agent : JsVal) : Outcome bool :=
  id ← Js.get agent "id";
  if negb (Js.truthy id) then Returned false else
  name ← Js.get agent "name";
  if negb (Js.truthy name) then Returned false else
  prompt ← Js.get agent "prompt";
  if negb (Js.truthy prompt) then Returned false else
  if negb (Js.is_string id) || negb (Js.is_string name)
     || negb (Js.is_string prompt)
  then Returned false else
  resources ← Js.get agent "resources";
  if Js.truthy resources then
    match resources with
    | JArr items => validateResources items
    | _ => Returned false
    end
  else Returned true.

(** The key under which a validated agent is stored: its [id], a string
    once [validateAgent] has accepted it. *)
Definition idOf (agent : JsVal) : string :=
  match Js.get agent "id" with
  | Returned (JStr id) => id
  | _ => ""
  end.

(** [this.agents.set(agent.id, agent)] *)
Definition keep (m : list (string * JsVal)) (agent : JsVal)
  : list (string * JsVal) :=
  JsMap.set (idOf agent) agent m.

Definition saveAgents : Prog unit :=
  Async.write (fun w => with_saved_agents (Some (JsMap.values (agents w))) w).

(** The warning about an agent that failed validation converts its
    id to text. *)
Definition warnInvalid (agent : JsVal) : Prog unit :=
  id ← Async.lift (Js.get agent "id");
  Async.lift (Js.interpolate id).

(** The loop of [updateAgents]. *)
Fixpoint addValid (newAgents : list JsVal) : Prog unit :=
  match newAgents with
  | [] => Ret tt
  | agent :: rest =>
      ok ← Async.lift (validateAgent agent);
      _ ← (if ok : bool
           then Async.write (fun w => with_agents (keep (agents w) agent) w)
           else warnInvalid agent);
      addValid rest
  end.

Definition updateAgents (newAgents : list JsVal) : Prog unit :=
  _ ← Async.write (with_agents []);
  _ ← addValid newAgents;
  saveAgents.

(** What the signature [agent: Agent] promises of the value: it is not
    [null], and neither are the members of its [resources] array. *)
Definition shaped (agent : JsVal) : bool :=
  negb (Js.nullish agent)
  && match Js.field agent "resources" with
     | JArr items => forallb (fun r => negb (Js.nullish r)) items
     | _ => true
     end.


(** Does the store's validation accept the agent? *)
Definition accepts (agent : JsVal) : bool :=
  match validateAgent agent with
  | Returned true => true
  | _ => false
  end.

Definition getAgents (w : World) : list JsVal := JsMap.values (agents w).

Definition getAgent (id : string) (w : World) : option JsVal :=
  JsMap.get id (agents w).


(** The loop of [loadAgents]: reading [agent.id] throws on [null]. *)
Fixpoint restore (savedAgents : list JsVal) : Prog unit :=
  match savedAgents with
  | [] => Ret tt
  | agent :: rest =>
      _ ← Async.lift (Js.get agent "id");
      _ ← Async.write (fun w => with_agents (keep (agents w) agent) w);
      restore rest
  end.

Definition loadAgents : Prog unit :=
  savedAgents ← Async.read (fun w => default [] (saved_agents w));
  _ ← Async.write (with_agents []);
  restore savedAgents.

Definition addOrUpdateAgent (agent : JsVal) : Prog bool :=
  ok ← Async.lift (validateAgent agent);
  if negb ok then Ret false
  else
    _ ← Async.write (fun w => with_agents (keep (agents w) agent) w);
    _ ← saveAgents;
    Ret true.

Definition removeAgent (id : string) : Prog bool :=
  deleted ← Sync (fun w => (JsMap.has id (agents w),
                            with_agents (JsMap.delete id (agents w)) w)) Ret;
  if deleted : bool then
    _ ← saveAgents;
    Ret true
  else Ret false.

Definition clearAgents : Prog unit :=
  _ ← Async.write (with_agents []);
  saveAgents.

End AgentManager.

(** ** copilotIntegration.ts: assembling the prompt *)

Module CopilotIntegration.

(** The fields of [vscode.ChatRequest] that are read. *)
Record ChatRequest := {
  prompt : string;
  command : option string
}.

(** [agent.prompt] of a registered agent: a string, as the store's
    validation has established. *)
Definition promptOf (agent : JsVal) : string :=
  match Js.field agent "prompt" with
  | JStr s => s
  | _ => ""
  end.

(** Truthiness of an optional string. *)
Definition given (o : option string) : bool :=
  match o with
  | Some s => negb (JsString.is_empty s)
  | None => false
  end.

(** [!resource.error && resource.content] *)
Definition usable (resource : ResourceContent.t) : bool :=
  negb (given (ResourceContent.error resource))
  && negb (JsString.is_empty (ResourceContent.content resource)).

Definition newline : string := String (ascii_of_nat 10) EmptyString.
Definition fence : string := "```".

(** The two [prompt +=] of the loop body, for a usable resource. *)
Definition resourceSection (resource : ResourceContent.t) : string :=
  ("### Resource: " +:+ ResourceContent.url resource +:+ newline)
  +:+ (fence +:+ newline +:+ ResourceContent.content resource +:+ newline
       +:+ fence +:+ newline +:+ newline).

Definition buildCompletePrompt (agent : JsVal) (request : ChatRequest)
  (resources : list ResourceContent.t) : string :=
  let prompt0 := promptOf agent in
  let prompt1 :=
    if (0 <? length resources)%nat then
      fold_left
        (fun prompt resource =>
           if usable resource then prompt +:+ resourceSection resource
           else prompt)
        resources
        (prompt0 +:+ newline +:+ newline +:+ "## Context Resources"
                 +:+ newline +:+ newline)
    else prompt0 in
  let prompt2 :=
    prompt1 +:+ newline +:+ newline +:+ "## User Request"
            +:+ newline +:+ newline +:+ prompt request in
  match command request with
  | Some c =>
      if JsString.is_empty c then prompt2
      else prompt2 +:+ newline +:+ newline +:+ "Command: " +:+ c
  | None => prompt2
  end.

End CopilotIntegration.


(** ** What a batch of loads may do to the state *)

Module Effects.
Import UrlResourceLoader.

(** From [w] to [w'] the only requests issued are those of resources
    of [allowed], and the cache changed under their keys only. *)
Definition within (allowed : list AgentResource.t) (w w' : World) : Prop :=
  (exists issued,
      requests w' = (requests w ++ issued)%list
      /\ Forall (fun rq => exists r, r ∈ allowed /\ rq = request r) issued)
  /\ (forall key, (forall r, r ∈ allowed -> key <> getCacheKey r) ->
        cache w' !! key = cache w !! key).

Definition waiting {A} (t : Async.Task A) : bool :=
  match t with
  | Async.Waiting _ _ _ => true
  | Async.Settled _ => false
  end.

(** The number of replies a batch still waits for. *)
Definition pending {A} (ts : list (Async.Task A)) : nat :=
  length (List.filter waiting ts).

(** A task that has returned, or will return once resumed, staying
    [within] the allowed resources. *)
Definition sound {A} (allowed : list AgentResource.t) (t : Async.Task A) : Prop :=
  match t with
  | Async.Settled (Returned _) => True
  | Async.Settled (Raised _) => False
  | Async.Waiting _ r k =>
      forall w, exists a w',
        Async.run (k r) w = (Returned a, w') /\ within allowed w w'
  end.


(** Does a load of the resource go to the network in [w]?  It does
    unless its slot holds an entry younger than its lifetime. *)
Definition due (w : World) (resource : AgentResource.t) : bool :=
  negb (fresh (clock w) (lifetime resource) (cache w !! getCacheKey resource)).

(** No cache entry is lost from [w] to [w']. *)
Definition grows (w w' : World) : Prop :=
  forall key, is_Some (cache w !! key) -> is_Some (cache w' !! key).

(** From [w] to [w'] no request was issued, the network is the same
    and no cache entry was lost. *)
Definition quiet (w w' : World) : Prop :=
  requests w' = requests w /\ net w' = net w /\ grows w w'.

(** A task that has returned with [post] holding, or will return
    quietly with [post] holding wherever it is resumed. *)
Definition promised {A} (post : World -> Prop) (t : Async.Task A) (w : World)
  : Prop :=
  match t with
  | Async.Settled (Returned _) => post w
  | Async.Settled (Raised _) => False
  | Async.Waiting _ r k =>
      forall w0, exists a w',
        Async.run (k r) w0 = (Returned a, w') /\ quiet w0 w' /\ post w'
  end.

(** A property of the state that holds on as long as no cache entry
    is lost. *)
Definition lasting (post : World -> Prop) : Prop :=
  forall w w', grows w w' -> post w -> post w'.

(** The slot of the resource is filled. *)
Definition warm (resource : AgentResource.t) (w : World) : Prop :=
  is_Some (cache w !! getCacheKey resource).

(** Every request is answered with a body. *)
Definition reliable (w : World) : Prop :=
  forall n rq, exists data, response (net w n rq) = Ok data.


(** What the loads of a batch are asked to establish: nothing, or a
    filled slot, which needs a network that answers. *)
Definition attainable (post : AgentResource.t -> World -> Prop) (w : World)
  : Prop :=
  (forall r, lasting (post r))
  /\ (forall r w0, warm r w0 -> post r w0)
  /\ (reliable w \/ forall r w0, post r w0).

End Effects.

(** ** Programs that only talk to the network *)

Module Traffic.

(** A program whose only effects are requests of kind [Q]: it has no
    synchronous step on the state. *)
Inductive asks (Q : Request -> Prop) {A : Type} : Prog A -> Prop :=
| asks_ret a : asks Q (Ret a)
| asks_throw e : asks Q (Throw e)
| asks_await rq k : Q rq -> (forall r, asks Q (k r)) -> asks Q (Await rq k).

(** The state apart from the clock and the list of requests. *)
Definition sameState (w w' : World) : Prop :=
  net w' = net w /\ cache w' = cache w /\ agents w' = agents w
  /\ saved_agents w' = saved_agents w /\ saved_lastSync w' = saved_lastSync w
  /\ repositoryUrl w' = repositoryUrl w /\ branch w' = branch w.

(** A request for a file that the manifest names: plain text is asked
    of the address that [buildRawUrl] gives for the repository, the
    branch and a path made of [agents/] or [templates/] and a name.  The
    name is text of the manifest as it stands. *)
Definition namedFile (repoUrl branch : string) (rq : Request) : Prop :=
  exists name,
    rq = RepositorySync.fileRequest
           (RawUrl.buildRawUrl repoUrl branch ("agents/" +:+ name))
    \/ rq = RepositorySync.fileRequest
              (RawUrl.buildRawUrl repoUrl branch ("templates/" +:+ name)).


(** A program all of whose results satisfy [P]. *)
Inductive yields {A : Type} (P : A -> Prop) : Prog A -> Prop :=
| yields_ret a : P a -> yields P (Ret a)
| yields_throw e : yields P (Throw e)
| yields_await rq k : (forall r, yields P (k r)) -> yields P (Await rq k).

(** [a'] is [a] up to its prompt and its templates. *)
Definition edited (a a' : JsVal) : Prop :=
  forall k, k <> "prompt" -> k <> "templates" -> Js.field a' k = Js.field a k.

End Traffic.


(** ** Sample data *)

Module Sample.

(** A runtime for the examples. *)
Definition runtime : JsRuntime :=
  {| JSON_stringify_indented := fun _ => Returned "{}";
     String_of := fun _ => "[object Object]" |}.

Definition offline : nat -> Request -> Reply :=
  fun _ _ => {| latency := 15000%N; response := Failed "timeout of 15000ms exceeded" |}.

Definition blank (network : nat -> Request -> Reply) : World :=
  {| clock := 1000000%Z; net := network; requests := []; cache := ∅;
     agents := []; saved_agents := None; saved_lastSync := None;
     repositoryUrl := Some "https://github.com/acme/widgets.git";
     branch := Some "main" |}.

Definition docs : AgentResource.t :=
  {| AgentResource.type := AgentResource.url_;
     AgentResource.url := "https://example.com/docs";
     AgentResource.name := None;
     AgentResource.description := None;
     AgentResource.headers := Some [("X-Team", "cloud")];
     AgentResource.cacheDuration := Some 60000%Z |}.


(** A cache holding a body for [docs] fetched long ago. *)
Definition staleCache : gmap string CacheEntry.t :=
  {[ UrlResourceLoader.getCacheKey docs :=
       {| CacheEntry.content := "cached body"; CacheEntry.timestamp := 0%Z |} ]}.

Definition stale (network : nat -> Request -> Reply) : World :=
  with_cache staleCache (blank network).

Definition online : nat -> Request -> Reply :=
  fun _ rq => {| latency := 120%N; response := Ok (JStr ("body of " +:+ req_url rq)) |}.


Definition noLifetime : AgentResource.t :=
  {| AgentResource.type := AgentResource.api_;
     AgentResource.url := "https://example.com/api/status";
     AgentResource.name := None;
     AgentResource.description := None;
     AgentResource.headers := None;
     AgentResource.cacheDuration := Some 0%Z |}.

(** A cache holding a body for [noLifetime] fetched one second ago. *)
Definition warm (network : nat -> Request -> Reply) : World :=
  with_cache
    {[ UrlResourceLoader.getCacheKey noLifetime :=
         {| CacheEntry.content := "up"; CacheEntry.timestamp := 999000%Z |} ]}
    (blank network).


(** The entries of section 8 of the specification. *)
Definition emptyId : JsVal :=
  JObj [("id", JStr ""); ("name", JStr "a"); ("prompt", JStr "b")].

Definition missingPrompt : JsVal :=
  JObj [("id", JStr "a"); ("name", JStr "b")].

Definition ftpResource : JsVal :=
  JObj [("id", JStr "a"); ("name", JStr "b"); ("prompt", JStr "c");
        ("resources", JArr [JObj [("type", JStr "ftp"); ("url", JStr "x")]])].

Definition emptyUrlResource : JsVal :=
  JObj [("id", JStr "d"); ("name", JStr "e"); ("prompt", JStr "f");
        ("resources", JArr [JObj [("type", JStr "url"); ("url", JStr "")]])].

Definition reviewer : JsVal :=
  JObj [("id", JStr "reviewer"); ("name", JStr "Reviewer");
        ("prompt", JStr "Review the change.");
        ("resources", JArr [JObj [("type", JStr "url");
                                  ("url", JStr "https://example.com/docs")]])].

(** A repository whose manifest lists [entries]. *)
Definition serving (entries : list JsVal) : nat -> Request -> Reply :=
  fun _ _ =>
    {| latency := 80%N;
       response := Ok (JObj [("version", JStr "1.0"); ("agents", JArr entries)]) |}.



(** An agent whose id is an object with a property [toString]. *)
Definition oddId : JsVal :=
  JObj [("id", JObj [("toString", JNum 1)]); ("name", JStr "Odd");
        ("prompt", JStr "Hm.")].

Definition retired : JsVal :=
  JObj [("id", JStr "retired"); ("name", JStr "Retired"); ("prompt", JStr "Bye.")].

(** A store that holds [retired] from an earlier sync. *)
Definition holding (network : nat -> Request -> Reply) : World :=
  with_saved_agents (Some [retired])
    (with_agents [("retired", retired)] (blank network)).


(** A repository in which [missing.md] cannot be fetched. *)
Definition patchy : nat -> Request -> Reply :=
  fun _ rq =>
    {| latency := 40%N;
       response :=
         if JsString.includes "missing" (req_url rq)
         then Failed "Request failed with status code 404"
         else Ok (JStr ("text of " +:+ req_url rq)) |}.


Definition templated : JsVal :=
  JObj [("id", JStr "helper"); ("name", JStr "Helper");
        ("prompt", JStr "Help the user.");
        ("templates", JArr [JStr "file:missing.md"; JStr "Be brief.";
                            JStr "file:review.md"])].


(** The url of [docs] declared by a second owner with other settings. *)
Definition docsShort : AgentResource.t :=
  {| AgentResource.type := AgentResource.url_;
     AgentResource.url := "https://example.com/docs";
     AgentResource.name := None;
     AgentResource.description := None;
     AgentResource.headers := Some [("X-Team", "platform")];
     AgentResource.cacheDuration := Some 5000%Z |}.

(** [docs] with a lifetime of five seconds. *)
Definition docsTwice : AgentResource.t :=
  {| AgentResource.type := AgentResource.url_;
     AgentResource.url := "https://example.com/docs";
     AgentResource.name := None;
     AgentResource.description := None;
     AgentResource.headers := Some [("X-Team", "cloud")];
     AgentResource.cacheDuration := Some 5000%Z |}.

Definition owners : list (string * list AgentResource.t) :=
  [("agent-a", [docs; noLifetime]); ("agent-b", [docsShort])].

Definition page (n : string) : AgentResource.t :=
  {| AgentResource.type := AgentResource.file_;
     AgentResource.url := "https://example.com/page/" +:+ n;
     AgentResource.name := None;
     AgentResource.description := None;
     AgentResource.headers := None;
     AgentResource.cacheDuration := None |}.


(** A cache holding a body for [docsShort] fetched two hours ago; the
    resource below declares a lifetime of three hours for that url. *)
Definition patient : AgentResource.t :=
  {| AgentResource.type := AgentResource.url_;
     AgentResource.url := "https://example.com/docs";
     AgentResource.name := None;
     AgentResource.description := None;
     AgentResource.headers := Some [("Accept", "text/markdown"); ("X-Team", "cloud")];
     AgentResource.cacheDuration := Some 10800000%Z |}.

Definition aged (network : nat -> Request -> Reply) : World :=
  with_clock 7200000
    (with_cache
       {[ UrlResourceLoader.getCacheKey patient :=
            {| CacheEntry.content := "old body"; CacheEntry.timestamp := 0%Z |} ]}
       (blank network)).


(** An agent whose prompt and one template are kept in files. *)
Definition filed : JsVal :=
  JObj [("id", JStr "writer"); ("name", JStr "Writer");
        ("prompt", JStr "file:missing.md");
        ("templates", JArr [JStr "file:review.md"])].

(** A repository that answers with something that is no manifest. *)
Definition garbled : nat -> Request -> Reply :=
  fun _ _ => {| latency := 80%N; response := Ok (JStr "<html>Not Found</html>") |}.


(** A process started without a repository url in its settings. *)
Definition unconfigured (network : nat -> Request -> Reply) : World :=
  {| clock := 1000000%Z; net := network; requests := []; cache := ∅;
     agents := []; saved_agents := None; saved_lastSync := None;
     repositoryUrl := None; branch := None |}.

Definition guided : JsVal :=
  JObj [("id", JStr "guide"); ("name", JStr "Guide");
        ("prompt", JStr "file:guide.md")].

Definition question : CopilotIntegration.ChatRequest :=
  {| CopilotIntegration.prompt := "How do I deploy?";
     CopilotIntegration.command := Some "explain" |}.

Definition loadedDocs : ResourceContent.t :=
  {| ResourceContent.url := "https://example.com/docs";
     ResourceContent.content := "Deploy with care.";
     ResourceContent.loadedAt := 1000120%Z;
     ResourceContent.error := None |}.

(** What the loader returns when it serves stale content. *)
Definition staleDocs : ResourceContent.t :=
  {| ResourceContent.url := "https://example.com/old";
     ResourceContent.content := "cached body";
     ResourceContent.loadedAt := 0%Z;
     ResourceContent.error := Some "timeout of 15000ms exceeded" |}.

End Sample.

(** * Properties *)

(** ** Running programs *)

Section Running.
Context {A B : Type}.

Lemma run_bind (p : Prog A) (f : A -> Prog B) w :
  Async.run (p ≫= f) w =
  match Async.run p w with
  | (Returned a, w') => Async.run (f a) w'
  | (Raised e, w') => (Raised e, w')
  end.
Proof.
  revert w. induction p as [a|e|C op k IH|rq k IH]; intros w; simpl; auto.
  destruct (op w) as [b w']. apply IH.
Qed.

Lemma run_try_catch (p : Prog A) (h : JsError -> Prog A) w :
  Async.run (Async.try_catch p h) w =
  match Async.run p w with
  | (Returned a, w') => (Returned a, w')
  | (Raised e, w') => Async.run (h e) w'
  end.
Proof.
  revert w. induction p as [a|e|C op k IH|rq k IH]; intros w; simpl; auto.
  destruct (op w) as [b w']. apply IH.
Qed.

Lemma run_lift (o : Outcome A) w : Async.run (Async.lift o) w = (o, w).
Proof. by destruct o. Qed.

End Running.

Lemma run_settle {A} (p : Prog A) w :
  Async.run (Async.settle p) w = (Returned (Async.run p w).1, (Async.run p w).2).
Proof.
  unfold Async.settle. rewrite run_try_catch.
  change (Async.bind p (fun a => Ret (Returned a)))
    with (p ≫= fun a => Ret (Returned a)).
  rewrite run_bind. by destruct (Async.run p w) as [[a|e] w'].
Qed.

Lemma run_axios_get rq w :
  Async.run (Async.axios_get rq) w
  = (match response (Async.reply_of w rq) with
     | Ok data => Returned data
     | Failed msg => Raised (AxiosError msg)
     end,
     with_clock (clock w + Z.of_N (latency (Async.reply_of w rq))) (Async.issue rq w)).
Proof. cbn. by destruct (response _). Qed.

(** ** Objects *)

Lemma assoc_assign_ne k k' x fs :
  k <> k' -> Js.assoc k (Js.assign k' x fs) = Js.assoc k fs.
Proof.
  intros Hne. induction fs as [|[k0 v0] fs IH]; cbn.
  - by destruct (String.eqb_spec k k').
  - destruct (String.eqb_spec k' k0) as [->|Hk]; cbn.
    + by destruct (String.eqb_spec k k0).
    + by rewrite IH.
Qed.

Lemma assoc_assign_eq k x fs : Js.assoc k (Js.assign k x fs) = Some x.
Proof.
  induction fs as [|[k0 v0] fs IH]; cbn.
  - by rewrite String.eqb_refl.
  - destruct (String.eqb_spec k k0) as [->|Hk]; cbn.
    + by rewrite String.eqb_refl.
    + by destruct (String.eqb_spec k k0).
Qed.

Lemma field_set_ne v k k' x :
  k <> k' -> Js.field (Js.set v k' x) k = Js.field v k.
Proof. intros Hne. destruct v; cbn; [done..|]. by rewrite assoc_assign_ne. Qed.


(** ** The resource loader *)

Section LoaderFacts.
Context `{JsRuntime}.
Import UrlResourceLoader.

Lemma run_fetchFresh_failed resource w msg :
  response (Async.reply_of w (request resource)) = Failed msg ->
  Async.run (fetchFresh resource) w
  = (Raised (AxiosError msg), answered resource w).
Proof. intros Hf. unfold fetchFresh. cbn. rewrite Hf. reflexivity. Qed.

Lemma run_fetchFresh_ok resource w data :
  response (Async.reply_of w (request resource)) = Ok data ->
  Async.run (fetchFresh resource) w
  = (Returned
       {| ResourceContent.url := AgentResource.url resource;
          ResourceContent.content := processContent data (AgentResource.type resource);
          ResourceContent.loadedAt := clock (answered resource w);
          ResourceContent.error := None |},
     with_cache
       (<[getCacheKey resource :=
           {| CacheEntry.content := processContent data (AgentResource.type resource);
              CacheEntry.timestamp := clock (answered resource w) |}]>
          (cache w))
       (answered resource w)).
Proof. intros Hf. unfold fetchFresh. cbn. rewrite Hf. reflexivity. Qed.

Lemma run_fallback resource e w :
  Async.run (fallback resource e) w
  = (Returned
       match cache w !! getCacheKey resource with
       | Some c =>
           {| ResourceContent.url := AgentResource.url resource;
              ResourceContent.content := CacheEntry.content c;
              ResourceContent.loadedAt := CacheEntry.timestamp c;
              ResourceContent.error := Some (message e) |}
       | None =>
           {| ResourceContent.url := AgentResource.url resource;
              ResourceContent.content := "";
              ResourceContent.loadedAt := clock w;
              ResourceContent.error := Some (message e) |}
       end, w).
Proof.
  unfold fallback. cbn.
  destruct (cache w !! getCacheKey resource); reflexivity.
Qed.

Lemma run_loadResource_hit resource w c :
  cache w !! getCacheKey resource = Some c ->
  (clock w - CacheEntry.timestamp c < lifetime resource)%Z ->
  Async.run (loadResource resource) w = (Returned (cacheHit resource c), w).
Proof.
  intros Hc Hage. unfold loadResource. cbn. rewrite Hc.
  apply Z.ltb_lt in Hage. rewrite Hage. reflexivity.
Qed.

Lemma run_loadResource_miss resource w :
  fresh (clock w) (lifetime resource) (cache w !! getCacheKey resource) = false ->
  Async.run (loadResource resource) w
  = Async.run (Async.try_catch (fetchFresh resource) (fallback resource)) w.
Proof.
  unfold loadResource, fresh. cbn.
  destruct (cache w !! getCacheKey resource) as [c|]; [|reflexivity].
  intros ->. reflexivity.
Qed.

End LoaderFacts.

Section LoaderClaims.
Context `{JsRuntime}.
Import UrlResourceLoader.

(** Whatever the cache and the network do, [loadResource] returns. *)
Lemma loadResource_returns resource w :
  exists result w', Async.run (loadResource resource) w = (Returned result, w').
Proof.
  destruct (fresh (clock w) (lifetime resource) (cache w !! getCacheKey resource))
    eqn:Hfresh.
  - unfold fresh in Hfresh.
    destruct (cache w !! getCacheKey resource) as [c|] eqn:Hc; [|done].
    apply Z.ltb_lt in Hfresh.
    rewrite (run_loadResource_hit _ _ c) by done. eauto.
  - rewrite run_loadResource_miss by done. rewrite run_try_catch.
    destruct (response (Async.reply_of w (request resource))) as [data|msg] eqn:Hr.
    + rewrite (run_fetchFresh_ok _ _ data) by done. eauto.
    + rewrite (run_fetchFresh_failed _ _ msg) by done.
      rewrite run_fallback. eauto.
Qed.

(** C1.  When the network fetch of [loadResource] fails, the result
    carries the error message; its content is that of the cache entry
    under the resource's key if there is one, however old, and the empty
    string otherwise; [loadResource] returns normally and leaves the
    cache as it was. *)
Theorem loadResource_failure_serves_stale resource w msg :
  fresh (clock w) (lifetime resource) (cache w !! getCacheKey resource) = false ->
  response (Async.reply_of w (request resource)) = Failed msg ->
  exists result w',
    Async.run (loadResource resource) w = (Returned result, w')
    /\ ResourceContent.error result = Some msg
    /\ ResourceContent.content result
       = match cache w !! getCacheKey resource with
         | Some c => CacheEntry.content c
         | None => ""
         end
    /\ cache w' = cache w
    /\ requests w' = (requests w ++ [request resource])%list.
Proof.
  intros Hmiss Hfail.
  rewrite run_loadResource_miss by done. rewrite run_try_catch.
  rewrite (run_fetchFresh_failed _ _ msg) by done. rewrite run_fallback.
  eexists _, _. split; [reflexivity|]. cbn.
  destruct (cache w !! getCacheKey resource); auto.
Qed.

End LoaderClaims.

Lemma loadResource_failure_serves_stale_witness :
  exists result w',
    Async.run (UrlResourceLoader.loadResource (H := Sample.runtime) Sample.docs)
              (Sample.stale Sample.offline) = (Returned result, w')
    /\ ResourceContent.error result = Some "timeout of 15000ms exceeded"
    /\ ResourceContent.content result = "cached body"
    /\ cache w' = cache (Sample.stale Sample.offline)
    /\ requests w' = [UrlResourceLoader.request Sample.docs].
Proof.
  apply (loadResource_failure_serves_stale (H := Sample.runtime) Sample.docs
           (Sample.stale Sample.offline) "timeout of 15000ms exceeded");
    vm_compute; reflexivity.
Defined.

Example loadResource_pure_miss :
  (Async.run (UrlResourceLoader.loadResource (H := Sample.runtime) Sample.docs)
             (Sample.blank Sample.offline)).1
  = Returned
      {| ResourceContent.url := "https://example.com/docs";
         ResourceContent.content := "";
         ResourceContent.loadedAt := 1015000;
         ResourceContent.error := Some "timeout of 15000ms exceeded" |}.
Proof. vm_compute. reflexivity. Qed.

Section CacheHit.
Context `{JsRuntime}.
Import UrlResourceLoader.




(** C10.  A resource declaring [cacheDuration] 0 gets the default
    lifetime of one hour: an entry younger than that is served from the
    cache, the state (and so the list of requests) staying as it was. *)
Theorem loadResource_zero_duration resource w c :
  AgentResource.cacheDuration resource = Some 0%Z ->
  cache w !! getCacheKey resource = Some c ->
  (clock w - CacheEntry.timestamp c < defaultCacheDuration)%Z ->
  lifetime resource = 3600000%Z
  /\ Async.run (loadResource resource) w = (Returned (cacheHit resource c), w).
Proof.
  intros Hzero Hc Hage.
  assert (lifetime resource = defaultCacheDuration) as Hl
    by (unfold lifetime; rewrite Hzero; reflexivity).
  split; [exact Hl|].
  apply run_loadResource_hit; [done|]. by rewrite Hl.
Qed.

End CacheHit.


Lemma loadResource_zero_duration_witness :
  UrlResourceLoader.lifetime Sample.noLifetime = 3600000%Z
  /\ Async.run (UrlResourceLoader.loadResource (H := Sample.runtime) Sample.noLifetime)
               (Sample.warm Sample.offline)
     = (Returned
          (UrlResourceLoader.cacheHit Sample.noLifetime
             {| CacheEntry.content := "up"; CacheEntry.timestamp := 999000 |}),
        Sample.warm Sample.offline).
Proof.
  apply (loadResource_zero_duration (H := Sample.runtime)).
  - reflexivity.
  - vm_compute. reflexivity.
  - vm_compute. reflexivity.
Defined.

(** ** Sweeping the cache *)

(** An entry one thousand seconds old survives the sweep, whatever
    smaller maximum age a caller has in mind. *)
Lemma clearExpiredCache_ignores_maxAge :
  let w := Sample.stale Sample.offline in
  let maxAge := 1000%Z in
  let key := UrlResourceLoader.getCacheKey Sample.docs in
  (exists entry,
      cache w !! key = Some entry
      /\ (clock w - CacheEntry.timestamp entry > maxAge)%Z
      /\ cache (Async.run UrlResourceLoader.clearExpiredCache w).2 !! key = Some entry)
  /\ cache (Async.run UrlResourceLoader.clearExpiredCache w).2
     <> UrlResourceLoader.clearExpiredSpec maxAge (clock w) (cache w).
Proof.
  cbv zeta. split.
  - eexists. repeat split; vm_compute; reflexivity.
  - intros Heq.
    apply (f_equal (fun m => m !! UrlResourceLoader.getCacheKey Sample.docs)) in Heq.
    vm_compute in Heq. discriminate.
Qed.

(** C9.  [clearExpiredCache] takes no maximum age: it removes exactly
    the entries whose age exceeds the fixed default lifetime of one hour
    and leaves every entry at or under that age in place. *)
Theorem clearExpiredCache_default_age w :
  exists w',
    Async.run UrlResourceLoader.clearExpiredCache w = (Returned tt, w')
    /\ (forall key entry,
          cache w' !! key = Some entry
          <-> cache w !! key = Some entry
              /\ (clock w - CacheEntry.timestamp entry <= 3600000)%Z)
    /\ requests w' = requests w
    /\ clock w' = clock w.
Proof.
  eexists. split; [reflexivity|]. cbn. split; [|done].
  intros key entry. rewrite map_lookup_filter_Some.
  unfold UrlResourceLoader.expired, UrlResourceLoader.defaultCacheDuration. cbn.
  split; intros [? ?]; split; auto; lia.
Qed.

(** ** Validation of manifest entries *)

Lemma get_not_nullish v k :
  Js.nullish v = false -> Js.get v k = Returned (Js.field v k).
Proof. unfold Js.get. by intros ->. Qed.

Lemma truthy_string v :
  Js.truthy v && Js.is_string v = Js.nonEmptyString v.
Proof. destruct v; cbn; rewrite ?andb_false_r, ?andb_true_r; done. Qed.

Lemma RepositorySync_validateAgent_spec entry :
  Js.nullish entry = false ->
  RepositorySync.validateAgent entry
  = Returned (Js.nonEmptyString (Js.field entry "id")
              && Js.nonEmptyString (Js.field entry "name")
              && Js.nonEmptyString (Js.field entry "prompt")).
Proof.
  intros Hn. unfold RepositorySync.validateAgent.
  rewrite !get_not_nullish by done. cbn.
  rewrite <- !truthy_string.
  destruct (Js.truthy (Js.field entry "id")); [|done].
  destruct (Js.truthy (Js.field entry "name")); cbn; [|by rewrite andb_false_r].
  destruct (Js.truthy (Js.field entry "prompt")); cbn; [|by rewrite andb_false_r].
  by destruct (Js.is_string (Js.field entry "id")),
              (Js.is_string (Js.field entry "name")),
              (Js.is_string (Js.field entry "prompt")).
Qed.

(** The fetcher keeps entries whose resources the store rejects, and
    they are part of what [fetchAgents] returns. *)
Lemma fetcher_accepts_invalid_resources :
  RepositorySync.validateAgent Sample.ftpResource = Returned true
  /\ AgentManager.validateAgent Sample.ftpResource = Returned false
  /\ RepositorySync.validateAgent Sample.emptyUrlResource = Returned true
  /\ AgentManager.validateAgent Sample.emptyUrlResource = Returned false
  /\ (Async.run RepositorySync.fetchAgents
        (Sample.blank (Sample.serving [Sample.ftpResource; Sample.emptyUrlResource]))).1
     = Returned [Sample.ftpResource; Sample.emptyUrlResource].
Proof. repeat split; vm_compute; reflexivity. Qed.

Lemma RepositorySync_validateAgent_null entry :
  Js.nullish entry = true ->
  RepositorySync.validateAgent entry
  = Raised (TypeError "Cannot read properties of null (reading 'id')").
Proof. intros Hn. unfold RepositorySync.validateAgent, Js.get. by rewrite Hn. Qed.

(** C3.  The fetcher validates a manifest entry on [id], [name] and
    [prompt] only.  When no entry of the list is [null] (or
    [undefined]), the entries kept are exactly those whose id, name and
    prompt are non-empty strings, in the order of the manifest: an
    entry whose id, name or prompt is missing, empty or not a string is
    dropped, every other entry is kept, and the resources of an entry
    are not inspected.  When some entry is [null], validating it throws
    and the filter keeps nothing: it fails as a whole. *)
Theorem fetcher_validates_identity_only (entries : list JsVal) :
  (forallb (fun entry => negb (Js.nullish entry)) entries = true ->
   RepositorySync.filterValid (JArr entries)
   = Returned
       (List.filter
          (fun entry =>
             Js.nonEmptyString (Js.field entry "id")
             && Js.nonEmptyString (Js.field entry "name")
             && Js.nonEmptyString (Js.field entry "prompt"))
          entries))
  /\ (forallb (fun entry => negb (Js.nullish entry)) entries = false ->
      exists msg, RepositorySync.filterValid (JArr entries) = Raised (TypeError msg)).
Proof.
  cbn [RepositorySync.filterValid].
  induction entries as [|entry entries [IHkept IHnull]]; [done|].
  cbn [Js.filter forallb List.filter].
  destruct (Js.nullish entry) eqn:Hn; cbn [negb andb].
  - rewrite RepositorySync_validateAgent_null by done. split; [done|eauto].
  - rewrite RepositorySync_validateAgent_spec by done. cbn [Js.bind]. split.
    + intros Hall. by rewrite (IHkept Hall).
    + intros Hsome. destruct (IHnull Hsome) as [msg ->]. eauto.
Qed.

Lemma fetcher_validates_identity_only_witness :
  RepositorySync.filterValid
    (JArr [Sample.emptyId; Sample.ftpResource; Sample.missingPrompt; Sample.reviewer])
  = Returned [Sample.ftpResource; Sample.reviewer]
  /\ exists msg,
      RepositorySync.filterValid (JArr [Sample.reviewer; JNull])
      = Raised (TypeError msg).
Proof.
  split.
  - apply (proj1 (fetcher_validates_identity_only
                    [Sample.emptyId; Sample.ftpResource; Sample.missingPrompt;
                     Sample.reviewer])). reflexivity.
  - apply (proj2 (fetcher_validates_identity_only [Sample.reviewer; JNull])).
    reflexivity.
Defined.

(** ** Insertion-ordered maps *)

Section JsMapFacts.
Context {V : Type}.
Implicit Types (m : list (string * V)) (k : string) (v : V).

Lemma JsMap_get_set_eq k v m : JsMap.get k (JsMap.set k v m) = Some v.
Proof.
  induction m as [|[k' v'] m IH]; cbn.
  - by rewrite String.eqb_refl.
  - destruct (String.eqb_spec k k') as [->|Hne]; cbn.
    + by rewrite String.eqb_refl.
    + destruct (String.eqb_spec k k'); [done|]. exact IH.
Qed.

Lemma JsMap_get_set_ne k k' v m :
  k <> k' -> JsMap.get k' (JsMap.set k v m) = JsMap.get k' m.
Proof.
  intros Hne. induction m as [|[k0 v0] m IH]; cbn.
  - destruct (String.eqb_spec k' k); [congruence|done].
  - destruct (String.eqb_spec k k0) as [->|Hk]; cbn.
    + destruct (String.eqb_spec k' k0); [congruence|done].
    + by rewrite IH.
Qed.

Lemma JsMap_get_None k m : JsMap.get k m = None <-> k ∉ JsMap.keys m.
Proof.
  induction m as [|[k' v'] m IH]; cbn.
  - split; [intros _; apply not_elem_of_nil|done].
  - rewrite not_elem_of_cons.
    destruct (String.eqb_spec k k') as [->|Hne]; [naive_solver|].
    rewrite IH. naive_solver.
Qed.

Lemma JsMap_set_fresh k v m :
  JsMap.get k m = None -> JsMap.set k v m = (m ++ [(k, v)])%list.
Proof.
  induction m as [|[k' v'] m IH]; cbn; [done|].
  destruct (String.eqb_spec k k'); [done|]. intros Hm. by rewrite IH.
Qed.

Lemma JsMap_values_set k v m x :
  x ∈ JsMap.values (JsMap.set k v m) -> x = v \/ x ∈ JsMap.values m.
Proof.
  unfold JsMap.values. induction m as [|[k' v'] m IH]; cbn.
  - rewrite list_elem_of_singleton. auto.
  - destruct (String.eqb_spec k k'); cbn; rewrite !elem_of_cons; naive_solver.
Qed.

Lemma JsMap_keys_set k v m :
  JsMap.keys (JsMap.set k v m)
  = if JsMap.has k m then JsMap.keys m else (JsMap.keys m ++ [k])%list.
Proof.
  unfold JsMap.has, JsMap.keys. induction m as [|[k' v'] m IH]; cbn; [done|].
  destruct (String.eqb_spec k k') as [->|Hne]; cbn; [done|].
  rewrite IH. by destruct (JsMap.get k m).
Qed.

Lemma JsMap_NoDup_set k v m :
  NoDup (JsMap.keys m) -> NoDup (JsMap.keys (JsMap.set k v m)).
Proof.
  intros Hnd. rewrite JsMap_keys_set. unfold JsMap.has.
  destruct (JsMap.get k m) eqn:Hg; [done|].
  apply NoDup_app. split; [done|]. split; [|apply NoDup_singleton].
  intros x Hx ->%list_elem_of_singleton. by apply JsMap_get_None in Hg.
Qed.

Lemma JsMap_get_elem k v m :
  NoDup (JsMap.keys m) -> (k, v) ∈ m -> JsMap.get k m = Some v.
Proof.
  induction m as [|[k' v'] m IH]; cbn; [by intros _ ?%elem_of_nil|].
  intros [Hk Hnd]%NoDup_cons [Heq|Hin]%elem_of_cons.
  - injection Heq as -> ->. by rewrite String.eqb_refl.
  - destruct (String.eqb_spec k k') as [->|Hne]; [|by apply IH].
    exfalso. apply Hk. apply list_elem_of_fmap. by exists (k', v).
Qed.

End JsMapFacts.

(** ** The agent store *)

Section Store.
Import AgentManager.

Lemma validateResource_returns resource :
  Js.nullish resource = false -> exists ok, validateResource resource = Returned ok.
Proof.
  intros Hn. unfold validateResource. rewrite !get_not_nullish by done. cbn.
  repeat (match goal with |- context [if ?b then _ else _] => destruct b end; eauto).
  destruct (Js.field resource "type"); eauto.
Qed.

Lemma validateResources_returns resources :
  forallb (fun r => negb (Js.nullish r)) resources = true ->
  exists ok, validateResources resources = Returned ok.
Proof.
  induction resources as [|r rest IH]; cbn; [eauto|].
  intros [Hr Hrest]%andb_true_iff. apply negb_true_iff in Hr.
  destruct (validateResource_returns r Hr) as [ok ->]. cbn.
  destruct ok; eauto.
Qed.

Lemma validateAgent_accepts agent :
  shaped agent = true -> validateAgent agent = Returned (accepts agent).
Proof.
  unfold shaped, accepts. intros [Hn Hres]%andb_true_iff.
  apply negb_true_iff in Hn.
  assert (exists ok, validateAgent agent = Returned ok) as [ok Hok].
  { unfold validateAgent. rewrite !get_not_nullish by done. cbn.
    repeat (match goal with |- context [if ?b then _ else _] => destruct b end; eauto).
    destruct (Js.field agent "resources"); eauto.
    by apply validateResources_returns. }
  rewrite Hok. by destruct ok.
Qed.

Lemma run_warnInvalid agent w :
  Async.run (warnInvalid agent) w
  = (if Js.nullish agent then Js.get agent "id" ≫= fun _ => Returned tt
     else Js.interpolate (Js.field agent "id"), w).
Proof.
  unfold warnInvalid. rewrite run_bind, run_lift. unfold Js.get.
  destruct (Js.nullish agent); [done|]. by rewrite run_lift.
Qed.



(** However the agents are shaped: when the loop comes to its end, the
    map holds what validation accepted. *)
Lemma run_addValid_returned newAgents w w' :
  Async.run (addValid newAgents) w = (Returned tt, w') ->
  w' = with_agents (fold_left keep (List.filter accepts newAgents) (agents w)) w.
Proof.
  revert w. induction newAgents as [|a l IH]; intros w.
  - cbn. intros [= <-]. by destruct w.
  - cbn [addValid List.filter]. rewrite run_bind, run_lift. unfold accepts at 1.
    destruct (validateAgent a) as [[|]|e]; [| |done].
    + rewrite run_bind. cbn [Async.run Async.write]. intros Hrun.
      by apply IH in Hrun.
    + rewrite run_bind, run_warnInvalid.
      destruct (if Js.nullish a then _ else _) as [[]|e]; [|done]. apply IH.
Qed.

Lemma run_updateAgents_returned newAgents w w1 :
  Async.run (updateAgents newAgents) w = (Returned tt, w1) ->
  w1 = (let m := fold_left keep (List.filter accepts newAgents) [] in
        with_saved_agents (Some (JsMap.values m)) (with_agents m w)).
Proof.
  unfold updateAgents. rewrite run_bind. cbn [Async.run Async.write].
  rewrite run_bind.
  destruct (Async.run (addValid newAgents) (with_agents [] w)) as [[[]|e] w2] eqn:Ha;
    [|done].
  apply run_addValid_returned in Ha as ->. cbn. by intros [= <-].
Qed.

(** The map built from a list of agents, each stored under its id. *)
Lemma keep_all_snoc l a m :
  fold_left keep (l ++ [a]) m = keep (fold_left keep l m) a.
Proof. by rewrite fold_left_app. Qed.

Lemma keep_all_NoDup l : NoDup (JsMap.keys (fold_left keep l [])).
Proof.
  induction l as [|a l IH] using rev_ind; [apply NoDup_nil_2|].
  rewrite keep_all_snoc. by apply JsMap_NoDup_set.
Qed.

Lemma keep_all_get l k b :
  JsMap.get k (fold_left keep l []) = Some b -> b ∈ l /\ idOf b = k.
Proof.
  induction l as [|a l IH] using rev_ind; [done|].
  rewrite keep_all_snoc. unfold keep at 1.
  destruct (decide (idOf a = k)) as [<-|Hne].
  - rewrite JsMap_get_set_eq. intros [= <-]. split; [|done].
    apply elem_of_app. right. apply list_elem_of_singleton. done.
  - rewrite JsMap_get_set_ne by done. intros [Hin Hid]%IH.
    split; [|done]. apply elem_of_app. by left.
Qed.

Lemma keep_all_covers l a :
  a ∈ l -> exists b, JsMap.get (idOf a) (fold_left keep l []) = Some b.
Proof.
  induction l as [|x l IH] using rev_ind; [by intros ?%elem_of_nil|].
  rewrite keep_all_snoc. unfold keep at 1. intros Hin.
  destruct (decide (idOf x = idOf a)) as [Heq|Hne].
  - rewrite <- Heq, JsMap_get_set_eq. eauto.
  - rewrite JsMap_get_set_ne by done. apply IH.
    apply elem_of_app in Hin as [Hin|Hin%list_elem_of_singleton]; [done|].
    by subst.
Qed.

Lemma keep_all_values l x :
  x ∈ JsMap.values (fold_left keep l []) ->
  JsMap.get (idOf x) (fold_left keep l []) = Some x.
Proof.
  unfold JsMap.values. intros [[k v] [-> Hin]]%list_elem_of_fmap. cbn.
  pose proof (JsMap_get_elem k v _ (keep_all_NoDup l) Hin) as Hget.
  by destruct (keep_all_get _ _ _ Hget) as [_ ->].
Qed.

Lemma keep_all_distinct l :
  NoDup (idOf <$> l) ->
  fold_left keep l [] = (fun a => (idOf a, a)) <$> l.
Proof.
  induction l as [|a l IH] using rev_ind; [done|].
  rewrite fmap_app. intros [Hl [Hfresh _]]%NoDup_app.
  rewrite keep_all_snoc, IH by done. unfold keep.
  rewrite JsMap_set_fresh; [by rewrite fmap_app|].
  apply JsMap_get_None. unfold JsMap.keys. rewrite <- list_fmap_compose.
  intros Hin. apply (Hfresh _ Hin). cbn. apply list_elem_of_singleton. done.
Qed.

Lemma elem_of_filter_accepts a l :
  a ∈ List.filter accepts l <-> a ∈ l /\ accepts a = true.
Proof. rewrite !list_elem_of_In. apply filter_In. Qed.

End Store.




(** The same happens when the warning about an invalid agent cannot
    convert its id to text. *)
Example updateAgents_rejects_odd_id :
  AgentManager.validateAgent Sample.oddId = Returned false
  /\ exists e w',
      Async.run (AgentManager.updateAgents [Sample.oddId; Sample.reviewer])
                (Sample.holding Sample.offline)
      = (Raised e, w')
      /\ AgentManager.getAgents w' = []
      /\ saved_agents w' = Some [Sample.retired].
Proof. split; [reflexivity|]. eexists _, _. vm_compute. done. Qed.


(** ** The repository fetcher *)

Section Fetcher.
Import RepositorySync.

(** With nothing persisted, a failed manifest request makes
    [fetchAgents] throw: no empty list is returned. *)
Lemma fetchAgents_rethrows_without_cache :
  let w := Sample.blank Sample.offline in
  saved_agents w = None
  /\ response (Async.reply_of w
                 (manifestRequest
                    (RawUrl.buildRawUrl "https://github.com/acme/widgets.git"
                                        "main" "agents.json")))
     = Failed "timeout of 15000ms exceeded"
  /\ (Async.run fetchAgents w).1 = Raised (AxiosError "timeout of 15000ms exceeded")
  /\ (Async.run fetchAgents w).1 <> Returned [].
Proof. cbv zeta. repeat split; try (vm_compute; reflexivity). vm_compute. discriminate. Qed.

(** C5.  When the request for the manifest fails, [fetchAgents] returns
    the persisted agents if that list is not empty and otherwise throws
    the error of the failed request to its caller; nothing persisted is
    changed. *)
Theorem fetchAgents_manifest_failure w repoUrl msg :
  repositoryUrl w = Some repoUrl ->
  JsString.is_empty repoUrl = false ->
  response (Async.reply_of w
              (manifestRequest
                 (RawUrl.buildRawUrl repoUrl (configuredBranch w) "agents.json")))
  = Failed msg ->
  exists w',
    Async.run fetchAgents w
    = (match saved_agents w with
       | Some (agent :: rest) => Returned (agent :: rest)
       | _ => Raised (AxiosError msg)
       end, w')
    /\ saved_agents w' = saved_agents w
    /\ saved_lastSync w' = saved_lastSync w
    /\ agents w' = agents w.
Proof.
  intros Hurl Hne Hfail. unfold fetchAgents. cbn. rewrite Hurl, Hne.
  simpl. rewrite Hfail. simpl.
  destruct (saved_agents w) as [[|agent rest]|] eqn:Hsaved; cbn;
    eexists; (split; [reflexivity|]); cbn; rewrite ?Hsaved; done.
Qed.

Lemma fetchAgents_manifest_failure_witness :
  exists w',
    Async.run fetchAgents (Sample.holding Sample.offline)
    = (Returned [Sample.retired], w')
    /\ saved_agents w' = Some [Sample.retired]
    /\ saved_lastSync w' = None
    /\ agents w' = [("retired", Sample.retired)].
Proof.
  apply (fetchAgents_manifest_failure (Sample.holding Sample.offline)
           "https://github.com/acme/widgets.git" "timeout of 15000ms exceeded");
    vm_compute; reflexivity.
Defined.






Lemma run_keepUnprocessed agent e w :
  nameable agent = true ->
  Async.run (keepUnprocessed agent e) w = (Returned agent, w).
Proof.
  unfold nameable, keepUnprocessed. intros [Hn Hp]%andb_true_iff.
  apply negb_true_iff in Hn.
  rewrite run_bind, run_lift, get_not_nullish by done.
  rewrite run_bind, run_lift. unfold Js.interpolate. by rewrite Hp.
Qed.

Lemma nameable_set agent k x :
  "id" <> k -> nameable agent = true -> nameable (Js.set agent k x) = true.
Proof.
  intros Hk. unfold nameable. rewrite field_set_ne by done. by destruct agent.
Qed.

Lemma validated_nameable agent :
  validateAgent agent = Returned true -> nameable agent = true.
Proof.
  unfold nameable. destruct (Js.nullish agent) eqn:Hn.
  { unfold validateAgent, Js.get. by rewrite Hn. }
  rewrite RepositorySync_validateAgent_spec by done.
  intros [= [[Hid _]%andb_true_iff _]%andb_true_iff].
  by destruct (Js.field agent "id").
Qed.

Lemma resolvePrompt_nameable agent repoUrl branch w agent1 w1 :
  nameable agent = true ->
  Async.run (resolvePrompt agent repoUrl branch) w = (Returned agent1, w1) ->
  nameable agent1 = true.
Proof.
  intros Hn. unfold resolvePrompt. rewrite run_bind, run_lift.
  destruct (Js.get agent "prompt") as [prompt|e]; [|done].
  destruct (Js.truthy prompt); [|by intros [= <- _]].
  rewrite run_bind, run_lift.
  destruct (isFileRef prompt) as [[|]|e]; [|by intros [= <- _]|done].
  rewrite run_bind, run_axios_get. destruct (response _); [|done].
  cbn [Async.run]. intros [= <- _]. by apply nameable_set.
Qed.

(** The loop body, run: the handler gets the agent of the half that
    threw. *)
Lemma run_processAgent agent repoUrl branch w :
  Async.run (processAgent agent repoUrl branch) w
  = match Async.run (resolvePrompt agent repoUrl branch) w with
    | (Returned agent1, w1) =>
        match Async.run (processTemplates agent1 repoUrl branch) w1 with
        | (Returned agent2, w2) => (Returned agent2, w2)
        | (Raised e, w2) => Async.run (keepUnprocessed agent1 e) w2
        end
    | (Raised e, w1) => Async.run (keepUnprocessed agent e) w1
    end.
Proof.
  unfold processAgent. rewrite run_bind, run_settle.
  destruct (Async.run (resolvePrompt agent repoUrl branch) w) as [[agent1|e] w1];
    cbn [fst snd]; [|done].
  by rewrite run_try_catch.
Qed.

Lemma processAgent_returns agent repoUrl branch w :
  nameable agent = true ->
  exists processed w',
    Async.run (processAgent agent repoUrl branch) w = (Returned processed, w').
Proof.
  intros Hn. rewrite run_processAgent.
  destruct (Async.run (resolvePrompt agent repoUrl branch) w)
    as [[agent1|e] w1] eqn:Hprompt.
  - destruct (Async.run (processTemplates agent1 repoUrl branch) w1)
      as [[agent2|e] w2]; [eauto|].
    rewrite run_keepUnprocessed; [eauto|]. by eapply resolvePrompt_nameable.
  - rewrite run_keepUnprocessed by done. eauto.
Qed.

(** No agent is lost in [processAgentFiles], whatever the network
    does, when the id of each can be put in a log line. *)
Lemma processAgentFiles_returns agents repoUrl branch w :
  Forall (fun a => nameable a = true) agents ->
  exists processed w',
    Async.run (processAgentFiles agents repoUrl branch) w = (Returned processed, w')
    /\ length processed = length agents.
Proof.
  intros Hn. revert w. induction Hn as [|agent rest Ha _ IH]; intros w;
    [by exists [], w|].
  cbn [processAgentFiles]. rewrite run_bind.
  destruct (processAgent_returns agent repoUrl branch w Ha) as (a & w1 & ->).
  rewrite run_bind. destruct (IH w1) as (others & w2 & -> & Hlen).
  exists (a :: others), w2. cbn. by rewrite Hlen.
Qed.




End Fetcher.

(** ** Preloading *)

Section Dedup.
Import UrlResourceLoader.

(** One turn of the deduplicating loop. *)
Lemma uniqueResources_snoc all resource :
  uniqueResources (all ++ [resource])
  = if JsMap.has (AgentResource.url resource) (uniqueResources all)
    then uniqueResources all
    else JsMap.set (AgentResource.url resource) resource (uniqueResources all).
Proof. unfold uniqueResources. by rewrite fold_left_app. Qed.

Lemma uniqueResources_NoDup all : NoDup (JsMap.keys (uniqueResources all)).
Proof.
  induction all as [|r all IH] using rev_ind; [apply NoDup_nil_2|].
  rewrite uniqueResources_snoc. destruct (JsMap.has _ _); [done|].
  by apply JsMap_NoDup_set.
Qed.

Lemma find_snoc {A} (p : A -> bool) l x :
  List.find p (l ++ [x])
  = match List.find p l with
    | Some y => Some y
    | None => if p x then Some x else None
    end.
Proof. induction l as [|y l IH]; cbn; [done|]. by destruct (p y). Qed.

(** Under a url the map holds the first resource declared with it. *)
Lemma uniqueResources_get all url :
  JsMap.get url (uniqueResources all)
  = List.find (fun r => String.eqb (AgentResource.url r) url) all.
Proof.
  induction all as [|r all IH] using rev_ind; [done|].
  rewrite uniqueResources_snoc, find_snoc, <- IH. unfold JsMap.has.
  destruct (String.eqb_spec (AgentResource.url r) url) as [<-|Hne].
  - destruct (JsMap.get _ _) eqn:Hg; [done|]. by rewrite JsMap_get_set_eq.
  - destruct (JsMap.get (AgentResource.url r) _); [by destruct (JsMap.get url _)|].
    rewrite JsMap_get_set_ne by done. by destruct (JsMap.get url _).
Qed.

Lemma find_url_Some all url r :
  List.find (fun r => String.eqb (AgentResource.url r) url) all = Some r ->
  AgentResource.url r = url.
Proof. intros [_ Heq]%find_some. by apply String.eqb_eq. Qed.

Lemma uniqueResources_elem all url r :
  (url, r) ∈ uniqueResources all <->
  List.find (fun x => String.eqb (AgentResource.url x) (AgentResource.url r)) all
  = Some r /\ url = AgentResource.url r.
Proof.
  split.
  - intros Hin.
    pose proof (JsMap_get_elem _ _ _ (uniqueResources_NoDup all) Hin) as Hget.
    rewrite uniqueResources_get in Hget.
    pose proof (find_url_Some _ _ _ Hget) as <-. done.
  - intros [Hfind ->]. rewrite <- uniqueResources_get in Hfind.
    revert Hfind. generalize (uniqueResources all) as m.
    induction m as [|[k v] m IH]; cbn; [done|].
    destruct (String.eqb_spec (AgentResource.url r) k) as [<-|Hne].
    + intros [= ->]. apply list_elem_of_here.
    + intros Hm. apply list_elem_of_further. by apply IH.
Qed.


Lemma uniqueResources_urls all :
  AgentResource.url <$> JsMap.values (uniqueResources all)
  = JsMap.keys (uniqueResources all).
Proof.
  unfold JsMap.values, JsMap.keys. rewrite <- list_fmap_compose.
  apply list_fmap_ext. intros i [k v] Hi. cbn.
  apply list_elem_of_lookup_2 in Hi. by apply uniqueResources_elem in Hi as [_ ->].
Qed.


End Dedup.

Section Batches.
Import UrlResourceLoader Effects.
Implicit Types allowed : list AgentResource.t.




Lemma within_mono allowed allowed' w w' :
  allowed ⊆ allowed' -> within allowed w w' -> within allowed' w w'.
Proof.
  intros Hsub [(issued & Hr & Hi) Hc]. split.
  - exists issued. split; [done|].
    eapply Forall_impl; [exact Hi|]. intros rq (r & Hin & ->). eauto.
  - intros key Hkey. apply Hc. intros r Hin. apply Hkey. by apply Hsub.
Qed.

Lemma sound_mono {A} allowed allowed' (t : Async.Task A) :
  allowed ⊆ allowed' -> sound allowed t -> sound allowed' t.
Proof.
  intros Hsub. destruct t as [[a|e]|arrival r k]; cbn; [done..|].
  intros Hk w. destruct (Hk w) as (a & w' & Hrun & Hw).
  exists a, w'. split; [done|]. by eapply within_mono.
Qed.

Lemma next_due_Some {A} (ts : list (Async.Task A)) i a :
  Async.next_due ts = Some (i, a) ->
  exists r k, ts !! i = Some (Async.Waiting a r k).
Proof.
  revert i a. induction ts as [|t ts IH]; intros i a; cbn; [done|].
  destruct (Async.next_due ts) as [[j b]|]; cbn.
  - destruct t as [o|a' r k]; cbn.
    + intros [= <- <-]. by apply IH.
    + destruct (b <? a')%Z; intros [= <- <-]; [by apply IH|]. eauto.
  - destruct t as [o|a' r k]; cbn; [done|]. intros [= <- <-]. eauto.
Qed.

Lemma next_due_None {A} (ts : list (Async.Task A)) :
  Async.next_due ts = None -> pending ts = 0.
Proof.
  unfold pending. induction ts as [|t ts IH]; cbn; [done|].
  destruct (Async.next_due ts) as [[j b]|]; cbn.
  - destruct t as [o|a' r k]; cbn; [done|]. by destruct (b <? a')%Z.
  - by destruct t as [o|a' r k]; cbn; [apply IH|].
Qed.

Lemma pending_settle {A} (ts : list (Async.Task A)) i a r k o :
  ts !! i = Some (Async.Waiting a r k) ->
  S (pending (<[i := Async.Settled o]> ts)) = pending ts.
Proof.
  unfold pending. revert i. induction ts as [|t ts IH]; intros [|i]; cbn; try done.
  - by intros [= ->].
  - intros Hi. destruct (waiting t); cbn; by rewrite <- (IH i Hi).
Qed.



Lemma pending_le_length {A} (ts : list (Async.Task A)) : pending ts <= length ts.
Proof.
  unfold pending. induction ts as [|t ts IH]; cbn; [done|].
  destruct (waiting t); cbn; lia.
Qed.

End Batches.

Section Promises.
Import Effects.

Lemma quiet_refl w : quiet w w.
Proof. split; [done|]. split; [done|]. by intros key Hk. Qed.

Lemma quiet_trans w1 w2 w3 : quiet w1 w2 -> quiet w2 w3 -> quiet w1 w3.
Proof.
  intros (Hr1 & Hn1 & Hg1) (Hr2 & Hn2 & Hg2).
  split; [congruence|]. split; [congruence|].
  intros key Hk. by apply Hg2, Hg1.
Qed.

Lemma quiet_clock t w : quiet w (with_clock t w).
Proof. exact (quiet_refl (with_clock t w)). Qed.

Lemma promised_quiet {A} post (t : Async.Task A) w w' :
  lasting post -> quiet w w' -> promised post t w -> promised post t w'.
Proof.
  intros Hpost (_ & _ & Hg). destruct t as [[a|e]|arrival r k]; cbn; [|done..].
  by apply Hpost.
Qed.

(** Draining a batch of promised tasks: all return, quietly, and every
    promise holds in the end. *)
Lemma drain_promised {A X} (post : X -> World -> Prop) fuel
    (xs : list X) (ts : list (Async.Task A)) w :
  (forall x, lasting (post x)) ->
  Forall2 (fun x t => promised (post x) t w) xs ts ->
  pending ts <= fuel ->
  exists ts' w',
    Async.drain fuel ts w = (ts', w')
    /\ quiet w w'
    /\ Forall2 (fun x t => promised (post x) t w') xs ts'
    /\ pending ts' = 0.
Proof.
  intros Hpost. revert ts w. induction fuel as [|fuel IH]; intros ts w Hts Hp.
  - exists ts, w. cbn. split_and!; [done|apply quiet_refl|done|lia].
  - cbn. destruct (Async.next_due ts) as [[i a]|] eqn:Hdue.
    + destruct (next_due_Some _ _ _ Hdue) as (r & k & Hi). rewrite Hi. cbn.
      destruct (Forall2_lookup_r _ _ _ _ _ Hts Hi) as (x & Hx & Hk). cbn in Hk.
      destruct (Hk (with_clock (Z.max (clock w) a) w)) as (res & w1 & -> & Hq & Hx1).
      assert (quiet w w1) as Hw1
        by (eapply quiet_trans; [apply quiet_clock|exact Hq]).
      destruct (IH (<[i := Async.Settled (Returned res)]> ts) w1)
        as (ts' & w' & Hrun & Hq' & Hts' & Hp').
      * rewrite <- (list_insert_id xs i x Hx). apply Forall2_insert; [|done].
        eapply Forall2_impl; [exact Hts|]. intros x' t' Ht'.
        by eapply promised_quiet.
      * pose proof (pending_settle ts i a r k (Returned res) Hi). lia.
      * exists ts', w'. split_and!; [done| |done|done].
        by eapply quiet_trans.
    + exists ts, w. split_and!; [done|apply quiet_refl|done|].
      by apply next_due_None.
Qed.

Lemma promised_settled {A X} (post : X -> World -> Prop)
    (xs : list X) (ts : list (Async.Task A)) w :
  Forall2 (fun x t => promised (post x) t w) xs ts ->
  pending ts = 0 ->
  Forall (fun x => post x w) xs /\ exists l, Async.collect ts = Returned l.
Proof.
  unfold pending. induction 1 as [|x t xs ts Ht _ IH]; cbn; [eauto|].
  destruct t as [[a|e]|arrival r k]; cbn in *; [|done..].
  intros Hp. destruct (IH Hp) as [Hxs [l ->]]. split; [by constructor|eauto].
Qed.

End Promises.

Section Preload.
Context `{JsRuntime}.
Import UrlResourceLoader Effects.








Lemma due_same w w' resource :
  cache w' = cache w -> clock w' = clock w -> due w' resource = due w resource.
Proof. unfold due. by intros -> ->. Qed.

Lemma due_false_warm w resource : due w resource = false -> warm resource w.
Proof.
  unfold due, fresh, warm. destruct (cache w !! getCacheKey resource); [eauto|done].
Qed.

Lemma List_filter_sublist {X} (p : X -> bool) (l : list X) : List.filter p l `sublist_of` l.
Proof.
  induction l as [|x l IH]; cbn; [done|].
  destruct (p x); by constructor.
Qed.

(** A load, started: it goes to the network exactly when it is [due],
    and it will return with the slot filled if the request is
    answered. *)
Lemma start_load_promised post resource w :
  attainable post w ->
  exists t w1,
    Async.start (loadResource resource) w = (t, w1)
    /\ promised (post resource) t w1
    /\ requests w1
       = (requests w ++ (request <$> List.filter (due w) [resource]))%list
    /\ cache w1 = cache w /\ net w1 = net w /\ clock w1 = clock w.
Proof.
  intros (Hlast & Hwarm & Hok). unfold loadResource. cbn.
  assert (due w resource = true ->
    exists t w1,
    Async.start (Async.try_catch (fetchFresh resource) (fallback resource)) w
    = (t, w1)
    /\ promised (post resource) t w1
    /\ requests w1
       = (requests w ++ (request <$> (if due w resource then [resource] else [])))%list
    /\ cache w1 = cache w /\ net w1 = net w /\ clock w1 = clock w) as Hmiss.
  { intros ->. eexists _, _. split; [reflexivity|].
    split; [|by split_and!]. intros w0. cbn.
    destruct (response (Async.reply_of w (request resource))) as [data|msg] eqn:Hr; cbn.
    - eexists _, _. split; [reflexivity|]. split.
      + split; [done|]. split; [done|]. intros key Hk. cbn.
        destruct (decide (getCacheKey resource = key)) as [<-|Hne].
        * rewrite lookup_insert_eq. eauto.
        * by rewrite lookup_insert_ne.
      + apply Hwarm. unfold warm. cbn. rewrite lookup_insert_eq. eauto.
    - assert (forall r w0, post r w0) as Hany.
      { destruct Hok as [Hok|Hany]; [|done].
        destruct (Hok (length (requests w)) (request resource)) as [data Hd].
        unfold Async.reply_of in Hr. congruence. }
      destruct (cache w0 !! getCacheKey resource); cbn;
        eexists _, _; (split; [reflexivity|]); (split; [apply quiet_refl|apply Hany]). }
  unfold due, fresh in Hmiss |- *.
  destruct (cache w !! getCacheKey resource) as [c|] eqn:Hc; [|by apply Hmiss].
  destruct (_ <? _)%Z; [|by apply Hmiss].
  eexists _, _. split; [reflexivity|]. cbn. rewrite app_nil_r.
  split_and!; try done.
  apply Hwarm. unfold warm. rewrite Hc. eauto.
Qed.

Lemma attainable_net post w w' : net w' = net w -> attainable post w -> attainable post w'.
Proof.
  intros Hnet (Hlast & Hwarm & Hok). split_and!; [done..|].
  destruct Hok as [Hok|Hany]; [left|by right].
  intros n rq. rewrite Hnet. apply Hok.
Qed.

(** The loads of a batch are started one after the other in the same
    cache and at the same time, so what is [due] when the batch begins
    is what is requested, in order. *)
Lemma start_all_promised post batch w :
  attainable post w ->
  exists ts w1,
    Async.start_all (loadResource <$> batch) w = (ts, w1)
    /\ Forall2 (fun r t => promised (post r) t w1) batch ts
    /\ requests w1 = (requests w ++ (request <$> List.filter (due w) batch))%list
    /\ cache w1 = cache w /\ net w1 = net w /\ clock w1 = clock w.
Proof.
  revert w. induction batch as [|resource batch IH]; intros w Hatt.
  - exists [], w. cbn. rewrite app_nil_r. by split_and!.
  - cbn [fmap list_fmap Async.start_all].
    destruct (start_load_promised post resource w Hatt)
      as (t & w1 & Hstart & Ht & Hr1 & Hc1 & Hn1 & Ht1).
    destruct (IH w1) as (ts & w2 & Hrest & Hts & Hr2 & Hc2 & Hn2 & Ht2).
    { by eapply attainable_net. }
    exists (t :: ts), w2. rewrite Hstart, Hrest.
    split; [done|]. split_and!.
    + constructor; [|done]. destruct t as [[a|e]|arrival r k]; [|done..].
      destruct Hatt as (Hlast & _). apply (Hlast resource w1); [|done].
      intros key. by rewrite Hc2.
    + rewrite Hr2, Hr1, <- app_assoc, <- fmap_app. do 2 f_equal.
      change (resource :: batch) with ([resource] ++ batch)%list.
      rewrite List.filter_app. f_equal.
      apply List.filter_ext. intros r. by apply due_same.
    + congruence.
    + congruence.
    + congruence.
Qed.

(** One batch: every load returns; the requests issued are those of
    the resources that were due when the batch began, in order; nothing
    is lost from the cache. *)
Lemma run_all_promised post batch w :
  attainable post w ->
  exists results w',
    Async.run (Async.all (loadResource <$> batch)) w = (Returned results, w')
    /\ Forall (fun r => post r w') batch
    /\ requests w' = (requests w ++ (request <$> List.filter (due w) batch))%list
    /\ grows w w' /\ net w' = net w.
Proof.
  intros Hatt. unfold Async.all. cbn [Async.run].
  destruct (start_all_promised post batch w Hatt)
    as (ts & w1 & -> & Hts & Hr1 & Hc1 & Hn1 & _).
  destruct Hatt as (Hlast & Hatt).
  destruct (drain_promised post (length ts) batch ts w1 Hlast Hts (pending_le_length ts))
    as (ts' & w2 & -> & (Hr2 & Hn2 & Hg2) & Hts' & Hp).
  destruct (promised_settled post batch ts' w2 Hts' Hp) as [Hposts [results ->]].
  exists results, w2. split_and!; [done|done|congruence| |congruence].
  intros key Hk. apply Hg2. by rewrite Hc1.
Qed.

Lemma grows_trans w1 w2 w3 : grows w1 w2 -> grows w2 w3 -> grows w1 w3.
Proof. intros H12 H23 key Hk. by apply H23, H12. Qed.

Lemma slice_batch i (arr : list AgentResource.t) :
  slice i (i + batchSize) arr = take batchSize (drop i arr).
Proof. unfold slice. by replace (i + batchSize - i) with batchSize by lia. Qed.

(** The loop over the batches, from position [i] on: it returns; of
    the batch at [i] it requests what is due when it begins, of the
    later ones some part, in order; and every resource from [i] on has
    been requested or has an entry in its slot. *)
Lemma run_preloadLoop_promised post fuel i resourceArray w :
  attainable post w ->
  length resourceArray - i <= fuel ->
  exists w' rest,
    Async.run (preloadLoop fuel i resourceArray) w = (Returned tt, w')
    /\ Forall (fun r => post r w') (drop i resourceArray)
    /\ requests w'
       = (requests w
          ++ (request <$> (List.filter (due w) (take batchSize (drop i resourceArray))
                           ++ rest)))%list
    /\ rest `sublist_of` drop (i + batchSize) resourceArray
    /\ (forall r, r ∈ drop i resourceArray ->
          r ∈ (List.filter (due w) (take batchSize (drop i resourceArray)) ++ rest)%list
          \/ warm r w')
    /\ grows w w' /\ net w' = net w.
Proof.
  revert i w. induction fuel as [|fuel IH]; intros i w Hatt Hfuel.
  - exists w, []. cbn. rewrite !drop_ge by lia. cbn. rewrite app_nil_r.
    split_and!; [done|done|done|done|by intros r ?%elem_of_nil|by intros key|done].
  - cbn [preloadLoop]. destruct (Nat.ltb_spec i (length resourceArray)) as [Hlt|Hge].
    + rewrite run_bind, slice_batch.
      destruct (run_all_promised post (take batchSize (drop i resourceArray)) w Hatt)
        as (results & w1 & -> & Hp1 & Hr1 & Hg1 & Hn1).
      destruct (IH (i + batchSize) w1)
        as (w2 & rest & -> & Hp2 & Hr2 & Hl2 & Hall2 & Hg2 & Hn2).
      { by eapply attainable_net. }
      { unfold batchSize. lia. }
      exists w2,
        (List.filter (due w1) (take batchSize (drop (i + batchSize) resourceArray))
         ++ rest)%list.
      split; [done|]. split_and!.
      * rewrite <- (take_drop batchSize (drop i resourceArray)), drop_drop.
        apply Forall_app. split; [|done].
        destruct Hatt as (Hlast & _).
        eapply Forall_impl; [exact Hp1|]. intros r Hr. by apply (Hlast r w1).
      * by rewrite Hr2, Hr1, <- app_assoc, <- fmap_app.
      * trans (take batchSize (drop (i + batchSize) resourceArray)
               ++ drop batchSize (drop (i + batchSize) resourceArray))%list;
          [|by rewrite take_drop].
        apply sublist_app; [apply List_filter_sublist|].
        by rewrite drop_drop.
      * intros r Hr.
        rewrite <- (take_drop batchSize (drop i resourceArray)), drop_drop in Hr.
        apply elem_of_app in Hr as [Hr|Hr].
        -- destruct (due w r) eqn:Hdue.
           ++ left. apply elem_of_app. left.
              apply list_elem_of_In, filter_In. split; [|done].
              by apply list_elem_of_In.
           ++ right. apply (grows_trans w w1 w2 Hg1 Hg2). by apply due_false_warm.
        -- destruct (Hall2 r Hr) as [Hin|Hw]; [left|by right].
           apply elem_of_app. by right.
      * by eapply grows_trans.
      * congruence.
    + exists w, []. cbn. rewrite !drop_ge by lia. cbn. rewrite app_nil_r.
      split_and!; [done|done|done|done|by intros r ?%elem_of_nil|by intros key|done].
Qed.


(** The bound on the iterations of the preload loop is never what
    stops it. *)
Lemma preloadLoop_fuel fuel extra i resourceArray w :
  length resourceArray - i <= fuel ->
  Async.run (preloadLoop (fuel + extra) i resourceArray) w
  = Async.run (preloadLoop fuel i resourceArray) w.
Proof.
  revert i w. induction fuel as [|fuel IH]; intros i w Hle.
  - cbn [Nat.add preloadLoop]. destruct extra as [|extra]; [done|].
    cbn [preloadLoop].
    destruct (Nat.ltb_spec i (length resourceArray)); [lia|done].
  - cbn [Nat.add preloadLoop].
    destruct (Nat.ltb_spec i (length resourceArray)); [|done].
    rewrite !run_bind. destruct (Async.run _ w) as [[results|e] w1]; [|done].
    apply IH. unfold batchSize. lia.
Qed.

End Preload.


(** The settings that decide are those of the first declaration: with
    an entry for the url that is forty seconds old, the first owner's
    lifetime of a minute makes the preload serve it without a request,
    where the second owner's five seconds would have asked anew. *)
Example preloadResources_first_lifetime :
  let w := with_clock 40000 (Sample.stale Sample.online) in
  requests (Async.run (UrlResourceLoader.preloadResources (H := Sample.runtime)
                         [("agent-a", [Sample.docs]); ("agent-b", [Sample.docsTwice])])
                      w).2 = []
  /\ requests (Async.run (UrlResourceLoader.preloadResources (H := Sample.runtime)
                            [("agent-b", [Sample.docsTwice]); ("agent-a", [Sample.docs])])
                         w).2 = [UrlResourceLoader.request Sample.docsTwice].
Proof. cbv zeta. split; vm_compute; reflexivity. Qed.

Example preloadResources_two_owners :
  let w' := (Async.run (UrlResourceLoader.preloadResources (H := Sample.runtime)
                          Sample.owners)
                       (Sample.blank Sample.online)).2 in
  requests w' = [UrlResourceLoader.request Sample.docs;
                 UrlResourceLoader.request Sample.noLifetime]
  /\ CacheEntry.content
       <$> cache w' !! UrlResourceLoader.getCacheKey Sample.docs
     = Some "body of https://example.com/docs"
  /\ cache w' !! UrlResourceLoader.getCacheKey Sample.docsShort = None.
Proof. cbv zeta. repeat split; vm_compute; reflexivity. Qed.

Example preloadResources_two_batches :
  let pages := Sample.page <$> ["1"; "2"; "3"; "4"; "5"; "6"; "7"] in
  let w' := (Async.run (UrlResourceLoader.preloadResources (H := Sample.runtime)
                          [("agent-a", pages)])
                       (Sample.blank Sample.online)).2 in
  requests w' = UrlResourceLoader.request <$> pages
  /\ clock w' = (1000000 + 120 + 120)%Z.
Proof. cbv zeta. split; vm_compute; reflexivity. Qed.

(** ** Raw-file addresses *)

Example buildRawUrl_gitlab_ssh :
  RawUrl.buildRawUrl "git@gitlab.com:team/tools.git" "dev" "a.json"
  = "https://gitlab.com/team/tools/-/raw/dev/a.json".
Proof. vm_compute. reflexivity. Qed.

Example buildRawUrl_azure :
  RawUrl.buildRawUrl "https://dev.azure.com/org/proj/_git/repo" "main" "agents.json"
  = "https://dev.azure.com/org/proj/_apis/git/repositories/repo/items?path=/agents.json&version=GBmain&api-version=7.0".
Proof. vm_compute. reflexivity. Qed.

(** C4.  buildRawUrl on [https://github.com/acme/widgets.git], branch
    [main], path [agents.json] yields the raw.githubusercontent.com
    address (the [.git] suffix being stripped first), and on the
    unrecognised host [https://git.example.com/acme/widgets] it yields
    the generic [<repo>/raw/<branch>/<path>] address. *)
Theorem buildRawUrl_examples :
  RawUrl.stripGit "https://github.com/acme/widgets.git"
    = "https://github.com/acme/widgets"
  /\ RawUrl.buildRawUrl "https://github.com/acme/widgets.git" "main" "agents.json"
    = "https://raw.githubusercontent.com/acme/widgets/main/agents.json"
  /\ RawUrl.buildRawUrl "https://git.example.com/acme/widgets" "main" "agents.json"
    = "https://git.example.com/acme/widgets/raw/main/agents.json".
Proof. repeat split; vm_compute; reflexivity. Qed.

(** * Further properties *)

(** ** Loading *)

Section Loading.
Context `{JsRuntime}.
Import UrlResourceLoader.

(** The three ways a load can end. *)
Lemma loadResource_cases resource w :
  (exists c,
      cache w !! getCacheKey resource = Some c
      /\ Async.run (loadResource resource) w = (Returned (cacheHit resource c), w))
  \/ (exists data,
      response (Async.reply_of w (request resource)) = Ok data
      /\ Async.run (loadResource resource) w
         = (Returned
              {| ResourceContent.url := AgentResource.url resource;
                 ResourceContent.content :=
                   processContent data (AgentResource.type resource);
                 ResourceContent.loadedAt := clock (answered resource w);
                 ResourceContent.error := None |},
            with_cache
              (<[getCacheKey resource :=
                  {| CacheEntry.content :=
                       processContent data (AgentResource.type resource);
                     CacheEntry.timestamp := clock (answered resource w) |}]>
                 (cache w))
              (answered resource w)))
  \/ (exists msg result,
      response (Async.reply_of w (request resource)) = Failed msg
      /\ Async.run (loadResource resource) w = (Returned result, answered resource w)
      /\ ResourceContent.url result = AgentResource.url resource).
Proof.
  destruct (fresh (clock w) (lifetime resource) (cache w !! getCacheKey resource))
    eqn:Hfresh.
  - left. unfold fresh in Hfresh.
    destruct (cache w !! getCacheKey resource) as [c|] eqn:Hc; [|done].
    exists c. split; [done|]. apply run_loadResource_hit; [done|].
    by apply Z.ltb_lt.
  - right. rewrite run_loadResource_miss by done. rewrite run_try_catch.
    destruct (response (Async.reply_of w (request resource))) as [data|msg] eqn:Hr.
    + left. exists data. split; [done|].
      by rewrite (run_fetchFresh_ok _ _ data).
    + right. rewrite (run_fetchFresh_failed _ _ msg) by done.
      rewrite run_fallback. eexists msg, _. split; [done|]. split; [reflexivity|].
      cbn. by destruct (cache w !! getCacheKey resource).
Qed.

(** [loadResources] answers with one result per resource, in the order
    of the input, each under the url of its resource; it returns
    whatever the network does. *)
Theorem loadResources_in_order resources w :
  exists results w',
    Async.run (loadResources resources) w = (Returned results, w')
    /\ ResourceContent.url <$> results = AgentResource.url <$> resources.
Proof.
  revert w. induction resources as [|resource rest IH]; intros w.
  - by exists [], w.
  - cbn [loadResources]. rewrite run_bind.
    assert (exists result w1,
      Async.run (loadResource resource) w = (Returned result, w1)
      /\ ResourceContent.url result = AgentResource.url resource)
      as (result & w1 & -> & Hurl).
    { destruct (loadResource_cases resource w)
        as [(c & _ & ->)|[(data & _ & ->)|(msg & result & _ & -> & Hurl)]]; eauto. }
    rewrite run_bind. destruct (IH w1) as (results & w2 & -> & Hurls).
    exists (result :: results), w2. split; [done|]. cbn. by rewrite Hurl, Hurls.
Qed.


(** A load changes the cache under its own key at most, never empties
    that slot, and leaves the agent store and what is persisted alone. *)
Theorem loadResource_own_slot resource w :
  let w' := (Async.run (loadResource resource) w).2 in
  (forall key, key <> getCacheKey resource -> cache w' !! key = cache w !! key)
  /\ (is_Some (cache w !! getCacheKey resource) ->
      is_Some (cache w' !! getCacheKey resource))
  /\ agents w' = agents w
  /\ saved_agents w' = saved_agents w.
Proof.
  destruct (loadResource_cases resource w)
    as [(c & _ & ->)|[(data & _ & ->)|(msg & result & _ & -> & _)]]; cbn.
  - done.
  - split; [|split; [|done]].
    + intros key Hkey. by rewrite lookup_insert_ne.
    + intros _. rewrite lookup_insert_eq. eauto.
  - done.
Qed.

(** After [clearCache] every load goes to the network, and a failing
    one has nothing stale to serve. *)
Theorem clearCache_forces_fetch resource w :
  exists result w',
    Async.run (_ ← clearCache; loadResource resource) w = (Returned result, w')
    /\ requests w' = (requests w ++ [request resource])%list
    /\ (forall msg,
          response (Async.reply_of w (request resource)) = Failed msg ->
          ResourceContent.content result = ""
          /\ ResourceContent.error result = Some msg
          /\ cache w' = ∅).
Proof.
  rewrite run_bind. cbn [Async.run clearCache Async.write].
  set (w0 := with_cache ∅ w).
  assert (fresh (clock w0) (lifetime resource) (cache w0 !! getCacheKey resource) = false)
    as Hmiss by done.
  rewrite run_loadResource_miss by done. rewrite run_try_catch.
  change (Async.reply_of w (request resource))
    with (Async.reply_of w0 (request resource)).
  destruct (response (Async.reply_of w0 (request resource))) as [data|msg] eqn:Hr.
  - rewrite (run_fetchFresh_ok _ _ data) by done.
    eexists _, _. split; [reflexivity|]. split; [done|]. by intros msg [=].
  - rewrite (run_fetchFresh_failed _ _ msg) by done. rewrite run_fallback.
    eexists _, _. split; [reflexivity|]. split; [done|].
    intros msg' [= <-]. done.
Qed.

End Loading.

Section Sweeping.
Context `{JsRuntime}.
Import UrlResourceLoader.

Lemma run_clearExpiredCache w :
  Async.run clearExpiredCache w
  = (Returned tt,
     with_cache (filter (fun kv => ¬ expired (clock w) kv.2) (cache w)) w).
Proof. reflexivity. Qed.

(** A sweep does not disturb a hit: an entry that [loadResource] would
    serve, for a resource whose lifetime is at most the default hour, is
    still served after [clearExpiredCache], without a request. *)
Theorem clearExpiredCache_keeps_hits resource w c :
  cache w !! getCacheKey resource = Some c ->
  (clock w - CacheEntry.timestamp c < lifetime resource)%Z ->
  (lifetime resource <= defaultCacheDuration)%Z ->
  exists w',
    Async.run (_ ← clearExpiredCache; loadResource resource) w
    = (Returned (cacheHit resource c), w')
    /\ requests w' = requests w.
Proof.
  intros Hc Hage Hlife. rewrite run_bind, run_clearExpiredCache.
  eexists. split.
  - apply run_loadResource_hit; [|done]. cbn.
    apply map_lookup_filter_Some. split; [done|]. unfold expired. cbn. lia.
  - reflexivity.
Qed.

(** A sweep removes an entry older than the default hour even when the
    resource declares a longer lifetime: the next load goes to the
    network, and if that fails there is no stale content left to
    serve. *)
Theorem clearExpiredCache_drops_long_lived resource w c :
  cache w !! getCacheKey resource = Some c ->
  (clock w - CacheEntry.timestamp c > defaultCacheDuration)%Z ->
  exists result w',
    Async.run (_ ← clearExpiredCache; loadResource resource) w = (Returned result, w')
    /\ requests w' = (requests w ++ [request resource])%list
    /\ (forall msg,
          response (Async.reply_of w (request resource)) = Failed msg ->
          ResourceContent.content result = ""
          /\ ResourceContent.error result = Some msg).
Proof.
  intros Hc Hage. rewrite run_bind, run_clearExpiredCache.
  set (w0 := with_cache _ w).
  assert (cache w0 !! getCacheKey resource = None) as Hgone.
  { apply map_lookup_filter_None. right. intros e He Hkeep.
    rewrite Hc in He. injection He as <-. by apply Hkeep. }
  assert (fresh (clock w0) (lifetime resource) (cache w0 !! getCacheKey resource) = false)
    as Hmiss by (by rewrite Hgone).
  rewrite run_loadResource_miss by done. rewrite run_try_catch.
  change (Async.reply_of w (request resource))
    with (Async.reply_of w0 (request resource)).
  destruct (response (Async.reply_of w0 (request resource))) as [data|msg] eqn:Hr.
  - rewrite (run_fetchFresh_ok _ _ data) by done.
    eexists _, _. split; [reflexivity|]. split; [done|]. by intros msg [=].
  - rewrite (run_fetchFresh_failed _ _ msg) by done. rewrite run_fallback.
    change (cache (answered resource w0)) with (cache w0). rewrite Hgone.
    eexists _, _. split; [reflexivity|]. split; [done|].
    by intros msg' [= <-].
Qed.

End Sweeping.


Lemma clearExpiredCache_keeps_hits_witness :
  exists w',
    Async.run (_ ← UrlResourceLoader.clearExpiredCache;
               UrlResourceLoader.loadResource (H := Sample.runtime) Sample.noLifetime)
              (Sample.warm Sample.offline)
    = (Returned (UrlResourceLoader.cacheHit Sample.noLifetime
                   {| CacheEntry.content := "up"; CacheEntry.timestamp := 999000 |}), w')
    /\ requests w' = [].
Proof.
  apply (clearExpiredCache_keeps_hits (H := Sample.runtime) Sample.noLifetime
           (Sample.warm Sample.offline)); vm_compute; try reflexivity; discriminate.
Defined.

Lemma clearExpiredCache_drops_long_lived_witness :
  (Async.run (UrlResourceLoader.loadResource (H := Sample.runtime) Sample.patient)
             (Sample.aged Sample.offline)).1
  = Returned (UrlResourceLoader.cacheHit Sample.patient
                {| CacheEntry.content := "old body"; CacheEntry.timestamp := 0 |})
  /\ exists result w',
      Async.run (_ ← UrlResourceLoader.clearExpiredCache;
                 UrlResourceLoader.loadResource (H := Sample.runtime) Sample.patient)
                (Sample.aged Sample.offline) = (Returned result, w')
      /\ requests w' = [UrlResourceLoader.request Sample.patient]
      /\ ResourceContent.content result = ""
      /\ ResourceContent.error result = Some "timeout of 15000ms exceeded".
Proof.
  split; [vm_compute; reflexivity|].
  destruct (clearExpiredCache_drops_long_lived (H := Sample.runtime) Sample.patient
              (Sample.aged Sample.offline)
              {| CacheEntry.content := "old body"; CacheEntry.timestamp := 0 |})
    as (result & w' & Hrun & Hreq & Hfail).
  - vm_compute. reflexivity.
  - vm_compute. reflexivity.
  - exists result, w'. split; [exact Hrun|]. split; [exact Hreq|].
    apply (Hfail "timeout of 15000ms exceeded"). vm_compute. reflexivity.
Defined.

(** ** Cache keys and request headers *)

Section Keys.
Import UrlResourceLoader.

Lemma unescape_escape c r : Json.unescape (Json.escape c +:+ r) = Some (c, r).
Proof.
  destruct c as [[] [] [] [] [] [] [] []]; reflexivity.
Qed.

Lemma append_cons x (a b : string) : String x a +:+ b = String x (a +:+ b).
Proof. reflexivity. Qed.

Lemma append_nil (b : string) : "" +:+ b = b.
Proof. reflexivity. Qed.

Lemma string_app_assoc (a b c : string) : (a +:+ b) +:+ c = a +:+ (b +:+ c).
Proof.
  induction a as [|x a IH]; [done|]. rewrite !append_cons. by f_equal.
Qed.

Lemma string_app_inv_head (a b c : string) : a +:+ b = a +:+ c -> b = c.
Proof.
  induction a as [|x a IH]; [done|]. rewrite !append_cons.
  intros [= Heq]. by apply IH.
Qed.

Lemma escape_all_inj s1 s2 r1 r2 :
  Json.escape_all s1 +:+ String Json.dquote r1
  = Json.escape_all s2 +:+ String Json.dquote r2 ->
  s1 = s2 /\ r1 = r2.
Proof.
  revert s2. induction s1 as [|c1 s1 IH]; intros [|c2 s2];
    cbn [Json.escape_all]; rewrite ?append_nil, ?string_app_assoc.
  - by intros [= ->].
  - intros Heq.
    apply (f_equal Json.unescape) in Heq. by rewrite unescape_escape in Heq.
  - intros Heq.
    apply (f_equal Json.unescape) in Heq. by rewrite unescape_escape in Heq.
  - intros Heq.
    apply (f_equal Json.unescape) in Heq. rewrite !unescape_escape in Heq.
    injection Heq as -> Heq. by destruct (IH _ Heq) as [-> ->].
Qed.

Lemma quote_inj s1 s2 r1 r2 :
  Json.quote s1 +:+ r1 = Json.quote s2 +:+ r2 -> s1 = s2 /\ r1 = r2.
Proof.
  unfold Json.quote, Json.str1.
  rewrite !append_cons, !string_app_assoc, !append_cons, !append_nil.
  intros [= Heq]. by apply escape_all_inj.
Qed.

Lemma member_inj kv1 kv2 r1 r2 :
  Json.member kv1 +:+ r1 = Json.member kv2 +:+ r2 -> kv1 = kv2 /\ r1 = r2.
Proof.
  destruct kv1 as [k1 v1], kv2 as [k2 v2]. unfold Json.member. cbn [fst snd].
  rewrite !string_app_assoc. intros [-> Heq]%quote_inj.
  apply string_app_inv_head in Heq. by apply quote_inj in Heq as [-> ->].
Qed.

Lemma member_head kv r : exists r', Json.member kv +:+ r = String Json.dquote r'.
Proof. unfold Json.member, Json.quote. rewrite !append_cons. eauto. Qed.

Lemma join_members_cons x l :
  Json.join "," (Json.member <$> (x :: l)) +:+ "}" = Json.member x +:+ Json.membersTail l.
Proof.
  destruct l as [|y l]; [done|]. cbn [fmap list_fmap Json.join Json.membersTail].
  by rewrite !string_app_assoc.
Qed.

Lemma join_members_inj l1 l2 :
  Json.join "," (Json.member <$> l1) +:+ "}"
  = Json.join "," (Json.member <$> l2) +:+ "}" ->
  l1 = l2.
Proof.
  revert l2. induction l1 as [|x1 l1 IH]; intros [|x2 l2].
  - done.
  - rewrite join_members_cons.
    destruct (member_head x2 (Json.membersTail l2)) as [r' ->]. discriminate.
  - rewrite join_members_cons.
    destruct (member_head x1 (Json.membersTail l1)) as [r' ->]. discriminate.
  - rewrite !join_members_cons. intros [-> Htail]%member_inj.
    f_equal. destruct l1 as [|y1 l1], l2 as [|y2 l2]; try done.
    unfold Json.membersTail in Htail. rewrite !append_cons, !append_nil in Htail.
    injection Htail as Htail. by apply IH.
Qed.

Lemma stringify_inj h1 h2 : Json.stringify h1 = Json.stringify h2 -> h1 = h2.
Proof.
  unfold Json.stringify. rewrite !append_cons, !append_nil.
  intros [= Heq]. by apply join_members_inj.
Qed.

Lemma getCacheKey_headers first second :
  AgentResource.url first = AgentResource.url second ->
  getCacheKey first = getCacheKey second ->
  AgentResource.headers first = AgentResource.headers second.
Proof.
  unfold getCacheKey. intros -> Heq%string_app_inv_head%string_app_inv_head.
  destruct (AgentResource.headers first) as [h1|],
           (AgentResource.headers second) as [h2|]; try done.
  by apply stringify_inj in Heq as ->.
Qed.

(** Two resources with the same url and different headers have
    different cache keys, so loading one leaves the slot of the other
    as it is. *)
Theorem headers_separate_cache_slots `{JsRuntime} first second w :
  AgentResource.url first = AgentResource.url second ->
  AgentResource.headers first <> AgentResource.headers second ->
  getCacheKey first <> getCacheKey second
  /\ cache (Async.run (loadResource first) w).2 !! getCacheKey second
     = cache w !! getCacheKey second.
Proof.
  intros Hurl Hhdr.
  assert (getCacheKey first <> getCacheKey second) as Hkey
    by (intros Heq; by apply Hhdr, getCacheKey_headers).
  split; [done|].
  destruct (loadResource_cases first w)
    as [(c & _ & ->)|[(data & _ & ->)|(msg & result & _ & -> & _)]]; cbn; [done| |done].
  by rewrite lookup_insert_ne.
Qed.

Lemma JsMap_get_fold_set {V} (l m : list (string * V)) k :
  NoDup (JsMap.keys l) ->
  JsMap.get k (fold_left (fun m kv => JsMap.set kv.1 kv.2 m) l m)
  = match JsMap.get k l with
    | Some v => Some v
    | None => JsMap.get k m
    end.
Proof.
  revert m. induction l as [|[k' v'] l IH]; intros m; [done|].
  cbn. intros [Hfresh Hnd]%NoDup_cons. rewrite IH by done.
  destruct (String.eqb_spec k k') as [->|Hne].
  - apply JsMap_get_None in Hfresh. by rewrite Hfresh, JsMap_get_set_eq.
  - by rewrite JsMap_get_set_ne.
Qed.

(** A header declared by the resource is sent with the declared value,
    also in place of the loader's [Accept] or [User-Agent]; a header
    not declared is sent with the loader's value, if it has one. *)
Theorem requestHeaders_precedence resource name :
  NoDup (JsMap.keys (default [] (AgentResource.headers resource))) ->
  JsMap.get name (req_headers (request resource))
  = match JsMap.get name (default [] (AgentResource.headers resource)) with
    | Some value => Some value
    | None =>
        if String.eqb name "User-Agent" then Some "VSCode-Cloud-Team-Copilot-Agent"
        else if String.eqb name "Accept"
             then Some (getAcceptHeader (AgentResource.type resource))
             else None
    end.
Proof.
  intros Hnd. unfold request, requestHeaders. cbn [req_headers].
  rewrite JsMap_get_fold_set by done. reflexivity.
Qed.

End Keys.

Lemma headers_separate_cache_slots_witness :
  UrlResourceLoader.getCacheKey Sample.docs
  <> UrlResourceLoader.getCacheKey Sample.docsShort
  /\ cache (Async.run (UrlResourceLoader.loadResource (H := Sample.runtime) Sample.docs)
                      (Sample.blank Sample.online)).2
       !! UrlResourceLoader.getCacheKey Sample.docsShort
     = cache (Sample.blank Sample.online)
       !! UrlResourceLoader.getCacheKey Sample.docsShort.
Proof.
  apply (headers_separate_cache_slots (H := Sample.runtime));
    [reflexivity|discriminate].
Defined.

Lemma requestHeaders_precedence_witness :
  JsMap.get "Accept" (req_headers (UrlResourceLoader.request Sample.patient))
  = Some "text/markdown"
  /\ JsMap.get "Accept" (req_headers (UrlResourceLoader.request Sample.docs))
     = Some "*/*".
Proof.
  split.
  - apply (requestHeaders_precedence Sample.patient "Accept").
    vm_compute. repeat constructor; set_solver.
  - apply (requestHeaders_precedence Sample.docs "Accept").
    vm_compute. repeat constructor; set_solver.
Defined.


(** ** What a preload achieves *)

Section Warming.
Context `{JsRuntime}.
Import UrlResourceLoader Effects.

(** [preloadResources] issues at most one request for each distinct
    url: the requests it adds are those of some of the unique resources,
    each once, in the order of first declaration; it always returns. *)
Theorem preloadResources_one_request_per_url agentResources w :
  exists w' loaded,
    Async.run (preloadResources agentResources) w = (Returned tt, w')
    /\ requests w' = (requests w ++ (request <$> loaded))%list
    /\ loaded `sublist_of`
         JsMap.values (uniqueResources (allResources agentResources))
    /\ NoDup (req_url <$> (request <$> loaded)).
Proof.
  unfold preloadResources.
  set (unique := JsMap.values (uniqueResources (allResources agentResources))).
  destruct (run_preloadLoop_promised (fun _ _ => True) (length unique) 0 unique w)
    as (w' & rest & Hrun & _ & Hreq & Hrest & _).
  { split_and!; [done|done|by right]. }
  { lia. }
  assert ((List.filter (due w) (take batchSize unique) ++ rest)%list
            `sublist_of` unique) as Hl.
  { trans (take batchSize unique ++ drop batchSize unique)%list;
      [|by rewrite take_drop].
    apply sublist_app; [apply List_filter_sublist|done]. }
  eexists w', _. split_and!; [done|exact Hreq|exact Hl|].
  rewrite <- list_fmap_compose.
  apply (sublist_NoDup _ (AgentResource.url <$> unique)).
  - unfold unique. rewrite uniqueResources_urls. apply uniqueResources_NoDup.
  - by apply fmap_sublist.
Qed.


End Warming.


(** ** Fetching the manifest and the files it names *)

Section Fetching.
Import Traffic RepositorySync.

Lemma asks_bind {A B} Q (p : Prog A) (f : A -> Prog B) :
  asks Q p -> (forall a, asks Q (f a)) -> asks Q (p ≫= f).
Proof.
  intros Hp Hf. induction Hp as [a|e|rq k Hrq _ IH]; cbn.
  - apply Hf.
  - constructor.
  - constructor; [done|]. exact IH.
Qed.

Lemma asks_try_catch {A} Q (p : Prog A) h :
  asks Q p -> (forall e, asks Q (h e)) -> asks Q (Async.try_catch p h).
Proof.
  intros Hp Hh. induction Hp as [a|e|rq k Hrq _ IH]; cbn.
  - constructor.
  - apply Hh.
  - constructor; [done|]. exact IH.
Qed.

Lemma asks_lift {A} Q (o : Outcome A) : asks Q (Async.lift o).
Proof. destruct o; constructor. Qed.

Lemma asks_axios_get Q rq : Q rq -> asks Q (Async.axios_get rq).
Proof.
  intros Hrq. constructor; [done|]. intros r. destruct (response r); constructor.
Qed.

(** Such a program adds requests of kind [Q] and moves the clock;
    everything else stays. *)
Lemma run_asks {A} Q (p : Prog A) w :
  asks Q p ->
  exists issued,
    requests (Async.run p w).2 = (requests w ++ issued)%list
    /\ Forall Q issued
    /\ sameState w (Async.run p w).2.
Proof.
  intros Hp. revert w. induction Hp as [a|e|rq k Hrq _ IH]; intros w.
  - exists []. cbn. rewrite app_nil_r. by repeat split.
  - exists []. cbn. rewrite app_nil_r. by repeat split.
  - cbn [Async.run].
    destruct (IH (Async.reply_of w rq)
                 (with_clock (clock w + Z.of_N (latency (Async.reply_of w rq)))
                             (Async.issue rq w)))
      as (issued & Hreq & HQ & Hsame).
    exists (rq :: issued). split; [|split].
    + rewrite Hreq. cbn. by rewrite <- app_assoc.
    + by constructor.
    + exact Hsame.
Qed.

Lemma asks_resolveTemplates repoUrl branch templates done :
  asks (namedFile repoUrl branch)
       (resolveTemplates templates done repoUrl branch).
Proof.
  revert done. induction templates as [|t rest IH]; intros acc; [constructor|].
  cbn [resolveTemplates]. apply asks_bind; [apply asks_lift|]. intros isRef.
  apply asks_bind; [|intros entry; apply IH].
  destruct isRef; [|constructor].
  apply asks_try_catch; [|constructor].
  apply asks_axios_get. exists (fileName t). by right.
Qed.

Lemma asks_settle {A} Q (p : Prog A) : asks Q p -> asks Q (Async.settle p).
Proof.
  intros Hp. unfold Async.settle. apply asks_try_catch; [|constructor].
  apply (asks_bind Q p); [done|constructor].
Qed.

Lemma asks_keepUnprocessed Q agent e : asks Q (keepUnprocessed agent e).
Proof.
  unfold keepUnprocessed. apply asks_bind; [apply asks_lift|]. intros id.
  apply asks_bind; [apply asks_lift|constructor].
Qed.

Lemma asks_resolvePrompt repoUrl branch agent :
  asks (namedFile repoUrl branch) (resolvePrompt agent repoUrl branch).
Proof.
  unfold resolvePrompt. apply asks_bind; [apply asks_lift|]. intros prompt.
  destruct (Js.truthy prompt); [|constructor].
  apply asks_bind; [apply asks_lift|]. intros [|]; [|constructor].
  apply asks_bind; [|constructor]. apply asks_axios_get.
  exists (fileName prompt). by left.
Qed.

Lemma asks_processTemplates repoUrl branch agent :
  asks (namedFile repoUrl branch) (processTemplates agent repoUrl branch).
Proof.
  unfold processTemplates. apply asks_bind; [apply asks_lift|].
  intros templates. destruct templates; try constructor.
  apply asks_bind; [apply asks_resolveTemplates|constructor].
Qed.

Lemma asks_processAgent repoUrl branch agent :
  asks (namedFile repoUrl branch) (processAgent agent repoUrl branch).
Proof.
  unfold processAgent. apply asks_bind.
  - apply asks_settle, asks_resolvePrompt.
  - intros [agent1|e]; [|apply asks_keepUnprocessed].
    apply asks_try_catch; [apply asks_processTemplates|].
    intros e. apply asks_keepUnprocessed.
Qed.

Lemma asks_processAgentFiles repoUrl branch agents :
  asks (namedFile repoUrl branch) (processAgentFiles agents repoUrl branch).
Proof.
  induction agents as [|agent rest IH]; [constructor|].
  cbn [processAgentFiles]. apply asks_bind; [apply asks_processAgent|].
  intros processed. apply asks_bind; [exact IH|constructor].
Qed.

Lemma yields_bind {A B} (P : A -> Prop) (Q : B -> Prop) (p : Prog A) f :
  yields P p -> (forall a, P a -> yields Q (f a)) -> yields Q (p ≫= f).
Proof.
  intros Hp Hf. induction Hp as [a Ha|e|rq k _ IH]; cbn.
  - by apply Hf.
  - constructor.
  - constructor. exact IH.
Qed.

Lemma yields_try_catch {A} (P : A -> Prop) (p : Prog A) h :
  yields P p -> (forall e, yields P (h e)) -> yields P (Async.try_catch p h).
Proof.
  intros Hp Hh. induction Hp as [a Ha|e|rq k _ IH]; cbn.
  - by constructor.
  - apply Hh.
  - constructor. exact IH.
Qed.

Lemma yields_mono {A} (P Q : A -> Prop) (p : Prog A) :
  (forall a, P a -> Q a) -> yields P p -> yields Q p.
Proof. intros HPQ. induction 1; constructor; auto. Qed.

Lemma yields_any {A} Q (p : Prog A) : asks Q p -> yields (fun _ => True) p.
Proof. induction 1; constructor; auto. Qed.

Lemma yields_lift {A} (P : A -> Prop) (o : Outcome A) :
  (forall a, o = Returned a -> P a) -> yields P (Async.lift o).
Proof. destruct o; constructor; auto. Qed.

Lemma run_yields {A} (P : A -> Prop) (p : Prog A) w a w' :
  yields P p -> Async.run p w = (Returned a, w') -> P a.
Proof.
  intros Hp. revert w. induction Hp as [b Hb|e|rq k _ IH]; intros w; cbn.
  - by intros [= <- _].
  - done.
  - apply IH.
Qed.

Lemma edited_refl a : edited a a.
Proof. by intros k _ _. Qed.

Lemma edited_trans a b c : edited a b -> edited b c -> edited a c.
Proof. intros Hab Hbc k H1 H2. by rewrite Hbc, Hab. Qed.

Lemma edited_prompt a x : edited a (Js.set a "prompt" x).
Proof. intros k H1 _. by apply field_set_ne. Qed.

Lemma edited_templates a x : edited a (Js.set a "templates" x).
Proof. intros k _ H2. by apply field_set_ne. Qed.

Lemma yields_settle {A} (P : A -> Prop) (p : Prog A) :
  yields P p ->
  yields (fun o => match o with Returned a => P a | Raised _ => True end)
         (Async.settle p).
Proof.
  intros Hp. unfold Async.settle.
  apply yields_try_catch; [|by constructor].
  apply (yields_bind P (fun o => match o with Returned a => P a | Raised _ => True end) p);
    [done|]. intros a Ha. by constructor.
Qed.

Lemma yields_keepUnprocessed (P : JsVal -> Prop) agent e :
  P agent -> yields P (keepUnprocessed agent e).
Proof.
  intros Ha. unfold keepUnprocessed.
  apply (yields_bind (fun _ => True)); [by apply yields_lift|]. intros id _.
  apply (yields_bind (fun _ => True)); [by apply yields_lift|]. intros u _.
  by constructor.
Qed.

Lemma yields_resolvePrompt repoUrl branch agent :
  yields (edited agent) (resolvePrompt agent repoUrl branch).
Proof.
  unfold resolvePrompt. apply (yields_bind (fun _ => True)).
  { apply yields_lift. done. }
  intros prompt _. destruct (Js.truthy prompt); [|constructor; apply edited_refl].
  apply (yields_bind (fun _ => True)); [by apply yields_lift|].
  intros [|] _; [|constructor; apply edited_refl].
  apply (yields_bind (fun _ => True)).
  - apply (yields_any (fun _ => True)), asks_axios_get. exact I.
  - intros data _. constructor. apply edited_prompt.
Qed.

Lemma yields_processTemplates (P : JsVal -> Prop) repoUrl branch agent :
  P agent -> (forall x, P (Js.set agent "templates" x)) ->
  yields P (processTemplates agent repoUrl branch).
Proof.
  intros Ha Hset. unfold processTemplates. apply (yields_bind (fun _ => True)).
  { by apply yields_lift. }
  intros templates _. destruct templates; try by constructor.
  apply (yields_bind (fun _ => True)).
  - apply (yields_any (namedFile repoUrl branch)), asks_resolveTemplates.
  - intros processed _. constructor. apply Hset.
Qed.

Lemma yields_processAgent repoUrl branch agent :
  yields (edited agent) (processAgent agent repoUrl branch).
Proof.
  unfold processAgent.
  apply (yields_bind
           (fun o => match o with Returned a => edited agent a | Raised _ => True end)).
  { apply yields_settle, yields_resolvePrompt. }
  intros [agent1|e] H1; [|apply yields_keepUnprocessed, edited_refl].
  apply yields_try_catch; [|intros e; by apply yields_keepUnprocessed].
  apply yields_processTemplates; [done|].
  intros x. eapply edited_trans; [exact H1|apply edited_templates].
Qed.

Lemma yields_processAgentFiles repoUrl branch agents :
  yields (Forall2 edited agents) (processAgentFiles agents repoUrl branch).
Proof.
  induction agents as [|agent rest IH]; [by constructor|].
  cbn [processAgentFiles].
  apply (yields_bind (edited agent)); [apply yields_processAgent|].
  intros processed Hp. apply (yields_bind (Forall2 edited rest)); [exact IH|].
  intros others Ho. constructor. by constructor.
Qed.

Lemma run_processAgentFiles agents repoUrl branch w :
  Forall (fun a => nameable a = true) agents ->
  exists processed w' issued,
    Async.run (processAgentFiles agents repoUrl branch) w = (Returned processed, w')
    /\ Forall2 edited agents processed
    /\ requests w' = (requests w ++ issued)%list
    /\ Forall (namedFile repoUrl branch) issued
    /\ sameState w w'.
Proof.
  intros Hn.
  destruct (processAgentFiles_returns agents repoUrl branch w Hn)
    as (processed & w' & Hrun & _).
  destruct (run_asks _ _ w (asks_processAgentFiles repoUrl branch agents))
    as (issued & Hreq & HQ & Hsame).
  rewrite Hrun in Hreq, Hsame.
  exists processed, w', issued. split_and!; [done| |done..].
  eapply run_yields; [apply yields_processAgentFiles|exact Hrun].
Qed.

(** [processAgentFiles] returns every agent it is given, in order and
    with all fields but [prompt] and [templates] as they were, whatever
    the network does, provided that no agent is [null] and the id of
    each can be converted to text for the log; its requests are for
    the files that prompts and templates name, under [agents/] and
    [templates/] at the raw address of the repository and branch, and
    it changes nothing else in the state. *)
Theorem processAgentFiles_keeps_agents agents repoUrl branch w :
  Forall (fun a => nameable a = true) agents ->
  exists processed w' issued,
    Async.run (processAgentFiles agents repoUrl branch) w = (Returned processed, w')
    /\ Forall2 edited agents processed
    /\ requests w' = (requests w ++ issued)%list
    /\ Forall (namedFile repoUrl branch) issued
    /\ sameState w w'.
Proof. apply run_processAgentFiles. Qed.

Lemma run_fetchAgents_configured w repoUrl :
  repositoryUrl w = Some repoUrl ->
  JsString.is_empty repoUrl = false ->
  Async.run fetchAgents w
  = Async.run (Async.try_catch (fetchManifest repoUrl (configuredBranch w)) useCached) w.
Proof.
  intros Hurl Hne. unfold fetchAgents.
  rewrite run_bind. cbn [Async.run Async.read].
  rewrite run_bind. cbn [Async.run Async.read].
  by rewrite Hurl, Hne.
Qed.

Lemma run_useCached e w :
  Async.run (useCached e) w
  = (match saved_agents w with
     | Some (agent :: rest) => Returned (agent :: rest)
     | _ => Raised e
     end, w).
Proof. unfold useCached. cbn. by destruct (saved_agents w) as [[|a l]|]. Qed.

Lemma filterValid_array entries :
  Forall (fun entry => Js.nullish entry = false) entries ->
  filterValid (JArr entries)
  = Returned
      (List.filter
         (fun entry =>
            Js.nonEmptyString (Js.field entry "id")
            && Js.nonEmptyString (Js.field entry "name")
            && Js.nonEmptyString (Js.field entry "prompt"))
         entries).
Proof.
  cbn. induction 1 as [|entry entries Hn _ IH]; [done|].
  cbn. rewrite RepositorySync_validateAgent_spec by done. cbn.
  rewrite IH. cbn. reflexivity.
Qed.

(** Without a repository url in the configuration, [fetchAgents]
    returns no agents, asks nothing of the network and leaves the state
    as it is. *)
Theorem fetchAgents_unconfigured w :
  default "" (repositoryUrl w) = "" ->
  Async.run fetchAgents w = (Returned [], w).
Proof.
  intros Hurl. unfold fetchAgents.
  rewrite run_bind. cbn [Async.run Async.read].
  rewrite run_bind. cbn [Async.run Async.read].
  destruct (repositoryUrl w) as [u|]; [|done]. cbn in Hurl. by subst u.
Qed.

Lemma truthy_not_nullish v : Js.truthy v = true -> Js.nullish v = false.
Proof. by destruct v. Qed.

(** What the checks make of a manifest whose [agents] is an array. *)
Lemma validEntries_array data entries :
  Js.field data "agents" = JArr entries ->
  validEntries data
  = (_ ← Js.interpolate (Js.field data "version"); filterValid (JArr entries)).
Proof.
  intros Hagents. unfold validEntries.
  assert (Js.truthy data = true) as Ht by (by destruct data).
  rewrite Ht, !(get_not_nullish data) by (by apply truthy_not_nullish).
  rewrite Hagents. reflexivity.
Qed.

Lemma validEntries_not_array data :
  (forall entries, Js.field data "agents" <> JArr entries) ->
  exists e,
    validEntries data = Raised e
    /\ (Js.truthy (Js.field data "agents") = false ->
        e = Error "Invalid agent configuration format").
Proof.
  intros Hnot. unfold validEntries.
  destruct (Js.truthy data) eqn:Ht; cbn [negb]; [|by eexists].
  rewrite !(get_not_nullish data) by (by apply truthy_not_nullish).
  cbn [mbind Outcome_bind Js.bind].
  destruct (Js.truthy (Js.field data "agents")) eqn:Hta;
    cbn [negb mbind Outcome_bind Js.bind]; [|by eexists].
  destruct (Js.interpolate (Js.lengthOf _)) as [[]|e];
    cbn [mbind Outcome_bind Js.bind]; [|by eexists].
  destruct (Js.interpolate (Js.field data "version")) as [[]|e];
    cbn [mbind Outcome_bind Js.bind]; [|by eexists].
  destruct (Js.field data "agents") as [| | | | |items|] eqn:Hf;
    try (by cbn in Hta); try (by eexists).
  by destruct (Hnot items).
Qed.

Lemma filter_nameable entries :
  Forall (fun entry => Js.nullish entry = false) entries ->
  Forall (fun a => nameable a = true)
    (List.filter
       (fun entry =>
          Js.nonEmptyString (Js.field entry "id")
          && Js.nonEmptyString (Js.field entry "name")
          && Js.nonEmptyString (Js.field entry "prompt"))
       entries).
Proof.
  intros Hn. apply Forall_forall. intros a [Ha Hv]%list_elem_of_In%filter_In.
  apply list_elem_of_In in Ha.
  pose proof (proj1 (Forall_forall _ _) Hn a Ha) as Hnull.
  apply validated_nameable. rewrite RepositorySync_validateAgent_spec by done.
  by rewrite Hv.
Qed.

(** A manifest whose [agents] is an array without [null], and whose
    [version] can be converted to text for the log, gives, in order,
    the entries with a non-empty string as id, name and prompt, each up
    to its prompt and templates; the time of the sync is recorded, and
    neither the stored nor the persisted agents change. *)
Theorem fetchAgents_returns_valid_entries w repoUrl data entries :
  repositoryUrl w = Some repoUrl ->
  JsString.is_empty repoUrl = false ->
  response (Async.reply_of w
              (manifestRequest
                 (RawUrl.buildRawUrl repoUrl (configuredBranch w) "agents.json")))
  = Ok data ->
  Js.field data "agents" = JArr entries ->
  Js.printable (Js.field data "version") = true ->
  Forall (fun entry => Js.nullish entry = false) entries ->
  exists fetched w',
    Async.run fetchAgents w = (Returned fetched, w')
    /\ Forall2 edited
         (List.filter
            (fun entry =>
               Js.nonEmptyString (Js.field entry "id")
               && Js.nonEmptyString (Js.field entry "name")
               && Js.nonEmptyString (Js.field entry "prompt"))
            entries)
         fetched
    /\ saved_lastSync w' = Some (clock w')
    /\ saved_agents w' = saved_agents w
    /\ agents w' = agents w.
Proof.
  intros Hurl Hne Hok Hagents Hversion Hentries.
  rewrite (run_fetchAgents_configured w repoUrl) by done.
  rewrite run_try_catch. unfold fetchManifest.
  rewrite run_bind, run_axios_get, Hok.
  set (w1 := with_clock _ _).
  rewrite run_bind, run_lift, (validEntries_array data entries) by done.
  unfold Js.interpolate. rewrite Hversion.
  cbn [mbind Outcome_bind Js.bind]. rewrite filterValid_array by done.
  rewrite run_bind.
  destruct (run_processAgentFiles
              (List.filter
                 (fun entry =>
                    Js.nonEmptyString (Js.field entry "id")
                    && Js.nonEmptyString (Js.field entry "name")
                    && Js.nonEmptyString (Js.field entry "prompt"))
                 entries)
              repoUrl (configuredBranch w) w1 (filter_nameable entries Hentries))
    as (fetched & w2 & issued & -> & Hed & _ & _ & Hsame).
  destruct Hsame as (_ & _ & Hag & Hsaved & _).
  eexists _, _. cbn. split; [reflexivity|]. cbn. by split_and!.
Qed.

Lemma filter_throws_on_nullish entries :
  Exists (fun entry => Js.nullish entry = true) entries ->
  exists e, Js.filter validateAgent entries = Raised e.
Proof.
  induction 1 as [entry rest Hn|entry rest _ [e IH]]; cbn.
  - unfold validateAgent, Js.get. rewrite Hn. cbn. eauto.
  - destruct (validateAgent entry) as [b|e']; cbn; [|eauto].
    rewrite IH. cbn. eauto.
Qed.

(** An answer to the manifest request that has no array under
    [agents] (no manifest at all, a missing or empty field, another
    type) is handled like a failed request: the persisted agents are
    returned when there are some, otherwise an error is thrown, which
    is the format error when [agents] is missing or falsy; the time of
    the last sync stays. *)
Theorem fetchAgents_malformed_manifest w repoUrl data :
  repositoryUrl w = Some repoUrl ->
  JsString.is_empty repoUrl = false ->
  response (Async.reply_of w
              (manifestRequest
                 (RawUrl.buildRawUrl repoUrl (configuredBranch w) "agents.json")))
  = Ok data ->
  (forall entries, Js.field data "agents" <> JArr entries) ->
  exists e w',
    Async.run fetchAgents w
    = (match saved_agents w with
       | Some (agent :: rest) => Returned (agent :: rest)
       | _ => Raised e
       end, w')
    /\ (Js.truthy (Js.field data "agents") = false ->
        e = Error "Invalid agent configuration format")
    /\ saved_lastSync w' = saved_lastSync w
    /\ saved_agents w' = saved_agents w.
Proof.
  intros Hurl Hne Hok Hnot.
  rewrite (run_fetchAgents_configured w repoUrl) by done.
  rewrite run_try_catch. unfold fetchManifest.
  rewrite run_bind, run_axios_get, Hok.
  set (w1 := with_clock _ _). rewrite run_bind, run_lift.
  destruct (validEntries_not_array data Hnot) as (e & -> & He).
  rewrite run_useCached. eexists _, _. split; [reflexivity|]. by split_and!.
Qed.

(** A [null] among the entries of the manifest is not dropped like
    other invalid entries: validating it throws, and the whole fetch
    ends like a failed one, with the persisted agents or an error. *)
Theorem fetchAgents_null_entry w repoUrl data entries :
  repositoryUrl w = Some repoUrl ->
  JsString.is_empty repoUrl = false ->
  response (Async.reply_of w
              (manifestRequest
                 (RawUrl.buildRawUrl repoUrl (configuredBranch w) "agents.json")))
  = Ok data ->
  Js.field data "agents" = JArr entries ->
  Exists (fun entry => Js.nullish entry = true) entries ->
  exists e w',
    Async.run fetchAgents w
    = (match saved_agents w with
       | Some (agent :: rest) => Returned (agent :: rest)
       | _ => Raised e
       end, w')
    /\ saved_lastSync w' = saved_lastSync w
    /\ saved_agents w' = saved_agents w.
Proof.
  intros Hurl Hne Hok Hagents Hnull.
  rewrite (run_fetchAgents_configured w repoUrl) by done.
  rewrite run_try_catch. unfold fetchManifest.
  rewrite run_bind, run_axios_get, Hok.
  set (w1 := with_clock _ _).
  rewrite run_bind, run_lift, (validEntries_array data entries) by done.
  assert (exists e, (_ ← Js.interpolate (Js.field data "version");
                     filterValid (JArr entries)) = Raised e) as [e ->].
  { destruct (Js.interpolate _) as [[]|e]; [|by eexists].
    cbn [mbind Outcome_bind Js.bind filterValid].
    apply (filter_throws_on_nullish entries Hnull). }
  rewrite run_useCached. eexists _, _. split; [reflexivity|]. by split_and!.
Qed.

Lemma run_resolvePrompt_ref agent reference repoUrl branch w :
  Js.field agent "prompt" = JStr reference ->
  JsString.startsWith "file:" reference = true ->
  Async.run (resolvePrompt agent repoUrl branch) w
  = (match response (Async.reply_of w (promptRequest repoUrl branch (JStr reference))) with
     | Ok data => Returned (Js.set agent "prompt" data)
     | Failed msg => Raised (AxiosError msg)
     end,
     with_clock (clock w + Z.of_N (latency (Async.reply_of w
                   (promptRequest repoUrl branch (JStr reference)))))
                (Async.issue (promptRequest repoUrl branch (JStr reference)) w)).
Proof.
  intros Hprompt Href.
  assert (Js.nullish agent = false) as Hn by (by destruct agent).
  unfold resolvePrompt. rewrite run_bind, run_lift, get_not_nullish, Hprompt by done.
  assert (Js.truthy (JStr reference) = true) as -> by (by destruct reference).
  rewrite run_bind, run_lift. cbn [isFileRef]. rewrite Href.
  rewrite run_bind, run_axios_get. by destruct (response _).
Qed.

(** When the file named by the prompt cannot be fetched, the agent
    (one whose id can be converted to text for the log) is returned
    exactly as it came, after that one request: its templates are not
    resolved either. *)
Theorem processAgent_prompt_failure agent reference repoUrl branch w msg :
  Js.field agent "prompt" = JStr reference ->
  JsString.startsWith "file:" reference = true ->
  Js.printable (Js.field agent "id") = true ->
  response (Async.reply_of w (promptRequest repoUrl branch (JStr reference)))
  = Failed msg ->
  exists w',
    Async.run (processAgent agent repoUrl branch) w = (Returned agent, w')
    /\ requests w'
       = (requests w ++ [promptRequest repoUrl branch (JStr reference)])%list.
Proof.
  intros Hprompt Href Hid Hfail.
  assert (nameable agent = true) as Hn.
  { unfold nameable. rewrite Hid. by destruct agent. }
  rewrite run_processAgent, (run_resolvePrompt_ref agent reference) by done.
  rewrite Hfail, run_keepUnprocessed by done.
  eexists. split; reflexivity.
Qed.

(** When that file is fetched, its body becomes the prompt of the
    agent returned (one whose id can be converted to text for the
    log), whatever happens to the templates afterwards. *)
Theorem processAgent_prompt_resolved agent reference repoUrl branch w data :
  Js.field agent "prompt" = JStr reference ->
  JsString.startsWith "file:" reference = true ->
  Js.printable (Js.field agent "id") = true ->
  response (Async.reply_of w (promptRequest repoUrl branch (JStr reference)))
  = Ok data ->
  exists processed w',
    Async.run (processAgent agent repoUrl branch) w = (Returned processed, w')
    /\ Js.field processed "prompt" = data.
Proof.
  intros Hprompt Href Hid Hok.
  assert (nameable agent = true) as Hn.
  { unfold nameable. rewrite Hid. by destruct agent. }
  assert (exists fields, agent = JObj fields) as [fields Hobj]
    by (destruct agent; try done; eauto).
  rewrite run_processAgent, (run_resolvePrompt_ref agent reference) by done.
  rewrite Hok.
  set (agent1 := Js.set agent "prompt" data). set (w1 := with_clock _ _).
  assert (Js.field agent1 "prompt" = data) as H1.
  { unfold agent1. rewrite Hobj. cbn. by rewrite assoc_assign_eq. }
  destruct (Async.run (processTemplates agent1 repoUrl branch) w1)
    as [[processed|e] w2] eqn:Hrun.
  - exists processed, w2. split; [done|].
    assert (yields (fun a => Js.field a "prompt" = data)
                   (processTemplates agent1 repoUrl branch)) as Hy.
    { apply yields_processTemplates; [done|]. intros x. by rewrite field_set_ne. }
    by apply (run_yields _ _ _ _ _ Hy Hrun).
  - rewrite run_keepUnprocessed by (by apply nameable_set).
    exists agent1, w2. done.
Qed.

(** A configured [fetchAgents] asks for the manifest and for the files
    it names, and for nothing else: its first request is for
    [agents.json] at the raw address of the configured repository and
    branch ([master] when none is set), and every request after it asks
    for plain text at the raw address of a path [agents/<name>] or
    [templates/<name>] of that repository and branch. *)
Theorem fetchAgents_asks_repository_only w repoUrl :
  repositoryUrl w = Some repoUrl ->
  JsString.is_empty repoUrl = false ->
  exists rest,
    requests (Async.run fetchAgents w).2
    = (requests w
       ++ manifestRequest
            (RawUrl.buildRawUrl repoUrl (configuredBranch w) "agents.json")
          :: rest)%list
    /\ Forall (namedFile repoUrl (configuredBranch w)) rest.
Proof.
  intros Hurl Hne. rewrite (run_fetchAgents_configured w repoUrl) by done.
  rewrite run_try_catch. unfold fetchManifest. rewrite run_bind, run_axios_get.
  set (rq := manifestRequest _). set (w1 := with_clock _ _).
  assert (requests w1 = (requests w ++ [rq])%list) as Hw1 by done.
  clearbody w1.
  assert (forall e w2, requests (Async.run (useCached e) w2).2 = requests w2)
    as Hcatch by (intros e w2; by rewrite run_useCached).
  assert (exists rest, requests w1 = (requests w ++ rq :: rest)%list
            /\ Forall (namedFile repoUrl (configuredBranch w)) rest) as Hnone
    by (exists []; by rewrite Hw1).
  destruct (response (Async.reply_of w rq)) as [data|msg];
    [|by rewrite Hcatch].
  rewrite run_bind, run_lift.
  destruct (validEntries data) as [valid|e]; [|by rewrite Hcatch].
  rewrite run_bind.
  destruct (run_asks _ _ w1 (asks_processAgentFiles repoUrl (configuredBranch w) valid))
    as (issued & Hreq & Hissued & _).
  assert (requests w1 ++ issued = requests w ++ rq :: issued)%list as Hall
    by (by rewrite Hw1, <- app_assoc).
  destruct (Async.run (processAgentFiles valid repoUrl (configuredBranch w)) w1)
    as [[processed|e] w2]; cbn [snd] in Hreq.
  - exists issued. cbn. by rewrite Hreq.
  - exists issued. by rewrite Hcatch, Hreq.
Qed.

End Fetching.

(** ** Raw-file addresses, in general *)

Section Addresses.
Import JsString RawUrl.

Lemma length_append (a b : string) :
  String.length (a +:+ b) = String.length a + String.length b.
Proof. induction a as [|x a IH]; [done|]. rewrite append_cons. cbn. by rewrite IH. Qed.

Lemma substring_whole (b : string) : String.substring 0 (String.length b) b = b.
Proof. induction b as [|x b IH]; cbn; [done|]. by rewrite IH. Qed.

Lemma substring_prefix (a b : string) :
  String.substring 0 (String.length a) (a +:+ b) = a.
Proof.
  induction a as [|x a IH]; [by destruct b|]. rewrite append_cons. cbn. by rewrite IH.
Qed.

Lemma substring_suffix (a b : string) m :
  String.substring (String.length a) m (a +:+ b) = String.substring 0 m b.
Proof. induction a as [|x a IH]; [done|]. rewrite append_cons. cbn. exact IH. Qed.

Lemma stripGit_suffix url : stripGit (url +:+ ".git") = url.
Proof.
  unfold stripGit, endsWith. rewrite length_append. cbn [String.length].
  replace (String.length url + 4 - 4) with (String.length url) by lia.
  rewrite substring_suffix. cbn [String.substring String.eqb Ascii.eqb Bool.eqb].
  destruct (Nat.leb_spec 4 (String.length url + 4)); [|lia]. cbn.
  apply substring_prefix.
Qed.

(** A trailing [.git] makes no difference to the address. *)
Theorem buildRawUrl_git_suffix url branch filePath :
  endsWith ".git" url = false ->
  buildRawUrl (url +:+ ".git") branch filePath = buildRawUrl url branch filePath.
Proof.
  intros Hplain. unfold buildRawUrl. rewrite stripGit_suffix.
  unfold stripGit. by rewrite Hplain.
Qed.

Lemma span_every p a b :
  every p a = true -> stops p b = true -> span p (a +:+ b) = (a, b).
Proof.
  intros Ha Hb. induction a as [|x a IH].
  - rewrite append_nil. destruct b as [|y b]; [done|].
    cbn in Hb |- *. by destruct (p y).
  - cbn in Ha. apply andb_true_iff in Ha as [Hx Ha].
    rewrite append_cons. cbn. by rewrite Hx, IH.
Qed.

Lemma group_every p a b :
  every p a = true -> is_empty a = false -> stops p b = true ->
  group p (a +:+ b) = Some (a, b).
Proof. intros Ha Hne Hb. unfold group. by rewrite span_every, Hne. Qed.

Lemma lit_slash X : lit "/" ("/" +:+ X) = Some X.
Proof. by destruct X. Qed.

Lemma ownerRepoAt_github owner repo rest :
  every word_or_dash owner = true -> is_empty owner = false ->
  every word_or_dash repo = true -> is_empty repo = false ->
  stops word_or_dash rest = true ->
  ownerRepoAt "github.com" ("github.com/" +:+ owner +:+ "/" +:+ repo +:+ rest)
  = Some (owner, repo).
Proof.
  intros Ho Hno Hr Hnr Hrest. unfold ownerRepoAt.
  change (lit "github.com" ("github.com/" +:+ owner +:+ "/" +:+ repo +:+ rest))
    with (Some ("/" +:+ owner +:+ "/" +:+ repo +:+ rest)).
  rewrite append_cons, append_nil.
  change (slash_or_colon "/") with true. cbv iota.
  rewrite group_every by done.
  rewrite lit_slash. by rewrite group_every.
Qed.

(** A GitHub address [https://github.com/<owner>/<repo>] resolves to
    the raw address of that owner and repository; whatever follows the
    repository name, from the first character outside [[\w-]] on, is
    ignored (so a name with a dot is cut at the dot). *)
Theorem buildRawUrl_github owner repo rest branch filePath :
  every word_or_dash owner = true -> is_empty owner = false ->
  every word_or_dash repo = true -> is_empty repo = false ->
  stops word_or_dash rest = true ->
  endsWith ".git" ("https://github.com/" +:+ owner +:+ "/" +:+ repo +:+ rest) = false ->
  buildRawUrl ("https://github.com/" +:+ owner +:+ "/" +:+ repo +:+ rest)
              branch filePath
  = "https://raw.githubusercontent.com/" +:+ owner +:+ "/" +:+ repo
    +:+ "/" +:+ branch +:+ "/" +:+ filePath.
Proof.
  intros Ho Hno Hr Hnr Hrest Hplain. unfold buildRawUrl, stripGit.
  rewrite Hplain. unfold github.
  change (includes "github.com"
            ("https://github.com/" +:+ owner +:+ "/" +:+ repo +:+ rest)) with true.
  cbv iota.
  change (search (ownerRepoAt "github.com")
            ("https://github.com/" +:+ owner +:+ "/" +:+ repo +:+ rest))
    with (match ownerRepoAt "github.com"
                  ("github.com/" +:+ owner +:+ "/" +:+ repo +:+ rest) with
          | Some x => Some x
          | None => search (ownerRepoAt "github.com")
                      ("ithub.com/" +:+ owner +:+ "/" +:+ repo +:+ rest)
          end).
  by rewrite ownerRepoAt_github.
Qed.

End Addresses.

(** ** The store and the fetcher together *)

Section StoreOperations.
Import AgentManager.

(** What the store accepts the fetcher accepts too, and on an agent
    without resources the two validations agree. *)
Theorem store_validation_is_stricter agent :
  (validateAgent agent = Returned true ->
   RepositorySync.validateAgent agent = Returned true)
  /\ (Js.truthy (Js.field agent "resources") = false ->
      validateAgent agent = RepositorySync.validateAgent agent).
Proof.
  destruct (Js.nullish agent) eqn:Hn.
  { unfold validateAgent, RepositorySync.validateAgent, Js.get. rewrite Hn. by cbn. }
  unfold validateAgent, RepositorySync.validateAgent.
  rewrite !get_not_nullish by done.
  cbn [mbind Outcome_bind Js.bind].
  destruct (negb (Js.truthy (Js.field agent "id"))); [done|].
  destruct (negb (Js.truthy (Js.field agent "name"))); [done|].
  destruct (negb (Js.truthy (Js.field agent "prompt"))); [done|].
  destruct (_ || _); [done|]. split; [done|]. by intros ->.
Qed.

Lemma accepts_not_nullish agent : accepts agent = true -> Js.nullish agent = false.
Proof.
  unfold accepts, validateAgent, Js.get. by destruct (Js.nullish agent).
Qed.

(** An agent the store accepts is filed under its id, replacing the
    one that had it, and persisted, all other ids keeping their agent;
    one it rejects changes nothing. *)
Theorem addOrUpdateAgent_files_agent agent w :
  shaped agent = true ->
  exists w',
    Async.run (addOrUpdateAgent agent) w = (Returned (accepts agent), w')
    /\ if accepts agent then
         getAgent (idOf agent) w' = Some agent
         /\ (forall id, id <> idOf agent -> getAgent id w' = getAgent id w)
         /\ saved_agents w' = Some (getAgents w')
       else w' = w.
Proof.
  intros Hs. unfold addOrUpdateAgent.
  rewrite run_bind, run_lift, validateAgent_accepts by done.
  destruct (accepts agent); cbn.
  - eexists. split; [reflexivity|]. unfold getAgent, getAgents, keep. cbn.
    split_and!; [apply JsMap_get_set_eq| |done].
    intros id Hid. by apply JsMap_get_set_ne.
  - by exists w.
Qed.

Lemma JsMap_delete_absent {V} k (m : list (string * V)) :
  JsMap.get k m = None -> JsMap.delete k m = m.
Proof.
  induction m as [|[k' v'] m IH]; cbn; [done|].
  destruct (String.eqb_spec k k'); [done|]. intros Hm. by rewrite IH.
Qed.

Lemma JsMap_get_delete_ne {V} k k' (m : list (string * V)) :
  k <> k' -> JsMap.get k' (JsMap.delete k m) = JsMap.get k' m.
Proof.
  intros Hne. induction m as [|[k0 v0] m IH]; cbn; [done|].
  destruct (String.eqb_spec k k0) as [->|Hk]; cbn.
  - by destruct (String.eqb_spec k' k0); [congruence|].
  - by rewrite IH.
Qed.

Lemma JsMap_get_delete_eq {V} k (m : list (string * V)) :
  NoDup (JsMap.keys m) -> JsMap.get k (JsMap.delete k m) = None.
Proof.
  induction m as [|[k0 v0] m IH]; cbn; [done|].
  intros [Hfresh Hnd]%NoDup_cons.
  destruct (String.eqb_spec k k0) as [->|Hk]; cbn.
  - by apply JsMap_get_None.
  - destruct (String.eqb_spec k k0); [done|]. by apply IH.
Qed.

(** [removeAgent] tells whether the id was held; afterwards the id is
    not held, every other id keeps its agent, and the map is persisted
    anew only when something was removed. *)
Theorem removeAgent_forgets_id id w :
  NoDup (JsMap.keys (agents w)) ->
  exists w',
    Async.run (removeAgent id) w = (Returned (JsMap.has id (agents w)), w')
    /\ getAgent id w' = None
    /\ (forall id', id' <> id -> getAgent id' w' = getAgent id' w)
    /\ if JsMap.has id (agents w)
       then saved_agents w' = Some (getAgents w')
       else w' = w.
Proof.
  intros Hnd. unfold removeAgent. cbn [mbind Prog_bind Async.bind Async.run].
  unfold JsMap.has. destruct (JsMap.get id (agents w)) as [a|] eqn:Hget; cbn.
  - eexists. split; [reflexivity|]. unfold getAgent, getAgents. cbn.
    split_and!; [by apply JsMap_get_delete_eq| |done].
    intros id' Hne. by apply JsMap_get_delete_ne.
  - rewrite JsMap_delete_absent by done.
    exists w. split; [by destruct w|]. unfold getAgent. by rewrite Hget.
Qed.

Lemma run_restore savedAgents w :
  Forall (fun a => Js.nullish a = false) savedAgents ->
  Async.run (restore savedAgents) w
  = (Returned tt, with_agents (fold_left keep savedAgents (agents w)) w).
Proof.
  intros Hs. revert w. induction Hs as [|a l Ha _ IH]; intros w.
  - by destruct w.
  - cbn [restore]. rewrite run_bind, run_lift, get_not_nullish by done.
    rewrite run_bind. cbn [Async.run Async.write]. rewrite IH. reflexivity.
Qed.

Lemma keep_all_entries l k a :
  (k, a) ∈ fold_left keep l [] -> a ∈ l /\ idOf a = k.
Proof.
  intros Hin. apply keep_all_get.
  by apply JsMap_get_elem; [apply keep_all_NoDup|].
Qed.

Lemma keep_all_rebuild l :
  fold_left keep (JsMap.values (fold_left keep l [])) [] = fold_left keep l [].
Proof.
  set (m := fold_left keep l []).
  assert ((fun a => (idOf a, a)) <$> JsMap.values m = m) as Hm.
  { unfold JsMap.values. rewrite <- list_fmap_compose.
    rewrite <- (list_fmap_id m) at 2. apply list_fmap_ext.
    intros i [k a] Hi. cbn. apply list_elem_of_lookup_2 in Hi.
    by destruct (keep_all_entries l k a Hi) as [_ ->]. }
  rewrite keep_all_distinct; [done|].
  replace (idOf <$> JsMap.values m) with (JsMap.keys m); [apply keep_all_NoDup|].
  rewrite <- Hm at 1. unfold JsMap.keys. by rewrite <- list_fmap_compose.
Qed.

(** What [updateAgents] has persisted brings the same agents back:
    when [updateAgents] has returned, [loadAgents], run on the state it
    left with any agents in memory, restores exactly the map it had
    built. *)
Theorem loadAgents_restores_update newAgents w w1 held :
  Async.run (updateAgents newAgents) w = (Returned tt, w1) ->
  Async.run loadAgents (with_agents held w1) = (Returned tt, w1).
Proof.
  intros ->%run_updateAgents_returned. cbn zeta.
  set (m := fold_left keep (List.filter accepts newAgents) []).
  unfold loadAgents. rewrite run_bind. cbn [Async.run Async.read].
  rewrite run_bind. cbn [Async.run Async.write].
  rewrite run_restore.
  - cbn. unfold m. by rewrite keep_all_rebuild.
  - cbn. apply Forall_forall. intros a Ha.
    apply keep_all_values, keep_all_get in Ha as [Ha _].
    apply elem_of_filter_accepts in Ha as [_ Hacc].
    by apply accepts_not_nullish.
Qed.

(** After [updateAgents] has stored at least one agent, a sync whose
    manifest request fails returns exactly the stored agents. *)
Theorem stored_agents_serve_failed_sync newAgents w w1 repoUrl msg :
  Forall (fun a => shaped a = true) newAgents ->
  Exists (fun a => accepts a = true) newAgents ->
  Async.run (updateAgents newAgents) w = (Returned tt, w1) ->
  repositoryUrl w1 = Some repoUrl ->
  JsString.is_empty repoUrl = false ->
  response (Async.reply_of w1
              (RepositorySync.manifestRequest
                 (RawUrl.buildRawUrl repoUrl (RepositorySync.configuredBranch w1)
                                     "agents.json")))
  = Failed msg ->
  (Async.run RepositorySync.fetchAgents w1).1 = Returned (getAgents w1).
Proof.
  intros Hs Hex Hrun Hurl Hne Hfail.
  apply run_updateAgents_returned in Hrun. cbn zeta in Hrun.
  rewrite (run_fetchAgents_configured w1 repoUrl) by done.
  rewrite run_try_catch. unfold RepositorySync.fetchManifest.
  rewrite run_bind, run_axios_get, Hfail, run_useCached.
  subst w1. cbn.
  set (m := fold_left keep (List.filter accepts newAgents) []).
  change (map snd m) with (JsMap.values m).
  destruct (JsMap.values m) as [|a l] eqn:Hm; [|done].
  exfalso. apply Exists_exists in Hex as (a & Ha & Hacc).
  destruct (keep_all_covers (List.filter accepts newAgents) a) as [b Hb].
  { by apply elem_of_filter_accepts. }
  fold m in Hb. destruct m; [done|discriminate Hm].
Qed.

(** [clearAgents] empties the store and what is persisted with it, so
    a sync whose manifest request fails afterwards has nothing to fall
    back on and throws. *)
Theorem clearAgents_leaves_no_fallback w repoUrl msg :
  let w1 := (Async.run clearAgents w).2 in
  repositoryUrl w = Some repoUrl ->
  JsString.is_empty repoUrl = false ->
  response (Async.reply_of w
              (RepositorySync.manifestRequest
                 (RawUrl.buildRawUrl repoUrl (RepositorySync.configuredBranch w)
                                     "agents.json")))
  = Failed msg ->
  getAgents w1 = []
  /\ saved_agents w1 = Some []
  /\ (Async.run RepositorySync.fetchAgents w1).1 = Raised (AxiosError msg).
Proof.
  cbn zeta. intros Hurl Hne Hfail. split; [done|]. split; [done|].
  set (w1 := (Async.run clearAgents w).2).
  rewrite (run_fetchAgents_configured w1 repoUrl) by done.
  rewrite run_try_catch. unfold RepositorySync.fetchManifest.
  rewrite run_bind, run_axios_get.
  change (Async.reply_of w1) with (Async.reply_of w).
  change (RepositorySync.configuredBranch w1) with (RepositorySync.configuredBranch w).
  by rewrite Hfail, run_useCached.
Qed.

End StoreOperations.

(** ** The prompt *)

Section Prompt.
Import CopilotIntegration.

Lemma fold_sections_skip before failed after start :
  usable failed = false ->
  fold_left (fun prompt resource =>
               if usable resource then prompt +:+ resourceSection resource
               else prompt)
            (before ++ failed :: after)%list start
  = fold_left (fun prompt resource =>
                 if usable resource then prompt +:+ resourceSection resource
                 else prompt)
              (before ++ after)%list start.
Proof. intros Hf. rewrite !fold_left_app. cbn. by rewrite Hf. Qed.

(** A resource that was loaded with an error, or with empty content,
    adds nothing to the prompt: beside other resources it may as well
    not have been loaded.  So the stale content that the loader serves
    together with an error never reaches the prompt. *)
Theorem buildCompletePrompt_skips_failed agent request before failed after :
  usable failed = false ->
  (before ++ after)%list <> [] ->
  buildCompletePrompt agent request (before ++ failed :: after)%list
  = buildCompletePrompt agent request (before ++ after)%list.
Proof.
  intros Hf Hne. unfold buildCompletePrompt.
  rewrite fold_sections_skip by done.
  assert ((0 <? length (before ++ failed :: after))%nat = true) as ->.
  { apply Nat.ltb_lt. rewrite length_app. cbn. lia. }
  assert ((0 <? length (before ++ after))%nat = true) as ->; [|done].
  apply Nat.ltb_lt. destruct (before ++ after)%list; [done|cbn; lia].
Qed.

End Prompt.

(** ** Instances *)

Lemma fetchAgents_unconfigured_witness :
  Async.run RepositorySync.fetchAgents (Sample.unconfigured Sample.online)
  = (Returned [], Sample.unconfigured Sample.online).
Proof. apply fetchAgents_unconfigured. reflexivity. Defined.

Lemma fetchAgents_returns_valid_entries_witness :
  exists fetched w',
    Async.run RepositorySync.fetchAgents
      (Sample.blank (Sample.serving
         [Sample.emptyId; Sample.ftpResource; Sample.missingPrompt; Sample.reviewer]))
    = (Returned fetched, w')
    /\ Forall2 Traffic.edited [Sample.ftpResource; Sample.reviewer] fetched
    /\ saved_lastSync w' = Some (clock w')
    /\ saved_agents w' = None
    /\ agents w' = [].
Proof.
  apply (fetchAgents_returns_valid_entries
           (Sample.blank (Sample.serving
              [Sample.emptyId; Sample.ftpResource; Sample.missingPrompt;
               Sample.reviewer]))
           "https://github.com/acme/widgets.git"
           (JObj [("version", JStr "1.0");
                  ("agents", JArr [Sample.emptyId; Sample.ftpResource;
                                   Sample.missingPrompt; Sample.reviewer])])
           [Sample.emptyId; Sample.ftpResource; Sample.missingPrompt;
            Sample.reviewer]);
    try (vm_compute; reflexivity).
  repeat constructor.
Defined.

Lemma fetchAgents_malformed_manifest_witness :
  exists e w',
    Async.run RepositorySync.fetchAgents (Sample.blank Sample.garbled)
    = (Raised e, w')
    /\ e = Error "Invalid agent configuration format"
    /\ saved_lastSync w' = None
    /\ saved_agents w' = None.
Proof.
  destruct (fetchAgents_malformed_manifest (Sample.blank Sample.garbled)
              "https://github.com/acme/widgets.git" (JStr "<html>Not Found</html>"))
    as (e & w' & Hrun & He & Hsync & Hsaved); try (vm_compute; reflexivity).
  - intros entries. discriminate.
  - exists e, w'. split; [exact Hrun|]. split; [by apply He|]. by split.
Defined.

Lemma fetchAgents_null_entry_witness :
  exists w',
    Async.run RepositorySync.fetchAgents
      (Sample.holding (Sample.serving [Sample.reviewer; JNull]))
    = (Returned [Sample.retired], w')
    /\ saved_lastSync w' = None
    /\ saved_agents w' = Some [Sample.retired].
Proof.
  destruct (fetchAgents_null_entry
              (Sample.holding (Sample.serving [Sample.reviewer; JNull]))
              "https://github.com/acme/widgets.git"
              (JObj [("version", JStr "1.0");
                     ("agents", JArr [Sample.reviewer; JNull])])
              [Sample.reviewer; JNull])
    as (e & w' & Hrun & Hsync & Hsaved); try (vm_compute; reflexivity).
  - apply Exists_cons_tl, Exists_cons_hd. reflexivity.
  - exists w'. split; [exact Hrun|]. by split.
Defined.

Lemma processAgent_prompt_failure_witness :
  exists w',
    Async.run (RepositorySync.processAgent Sample.filed
                 "https://github.com/acme/widgets.git" "main")
              (Sample.blank Sample.patchy) = (Returned Sample.filed, w')
    /\ requests w'
       = [RepositorySync.promptRequest "https://github.com/acme/widgets.git" "main"
            (JStr "file:missing.md")].
Proof.
  apply (processAgent_prompt_failure Sample.filed "file:missing.md"
           "https://github.com/acme/widgets.git" "main" (Sample.blank Sample.patchy)
           "Request failed with status code 404"); vm_compute; reflexivity.
Defined.

Lemma processAgent_prompt_resolved_witness :
  exists processed w',
    Async.run (RepositorySync.processAgent Sample.guided
                 "https://github.com/acme/widgets.git" "main")
              (Sample.blank Sample.patchy) = (Returned processed, w')
    /\ Js.field processed "prompt"
       = JStr "text of https://raw.githubusercontent.com/acme/widgets/main/agents/guide.md".
Proof.
  apply (processAgent_prompt_resolved Sample.guided "file:guide.md"
           "https://github.com/acme/widgets.git" "main" (Sample.blank Sample.patchy));
    vm_compute; reflexivity.
Defined.

Lemma buildRawUrl_git_suffix_witness :
  RawUrl.buildRawUrl ("https://gitlab.com/team/tools" +:+ ".git") "dev" "a.json"
  = RawUrl.buildRawUrl "https://gitlab.com/team/tools" "dev" "a.json".
Proof. apply buildRawUrl_git_suffix. reflexivity. Defined.

Lemma buildRawUrl_github_witness :
  RawUrl.buildRawUrl
    ("https://github.com/" +:+ "acme" +:+ "/" +:+ "widgets" +:+ ".js/tree/main")
    "main" "agents.json"
  = "https://raw.githubusercontent.com/" +:+ "acme" +:+ "/" +:+ "widgets"
    +:+ "/" +:+ "main" +:+ "/" +:+ "agents.json".
Proof. apply buildRawUrl_github; reflexivity. Defined.

Lemma store_validation_is_stricter_witness :
  RepositorySync.validateAgent Sample.reviewer = Returned true
  /\ AgentManager.validateAgent Sample.retired
     = RepositorySync.validateAgent Sample.retired.
Proof.
  split.
  - apply (proj1 (store_validation_is_stricter Sample.reviewer)). reflexivity.
  - apply (proj2 (store_validation_is_stricter Sample.retired)). reflexivity.
Defined.

Lemma addOrUpdateAgent_files_agent_witness :
  exists w',
    Async.run (AgentManager.addOrUpdateAgent Sample.reviewer)
              (Sample.holding Sample.offline) = (Returned true, w')
    /\ AgentManager.getAgent "reviewer" w' = Some Sample.reviewer
    /\ AgentManager.getAgent "retired" w' = Some Sample.retired
    /\ saved_agents w' = Some [Sample.retired; Sample.reviewer].
Proof.
  destruct (addOrUpdateAgent_files_agent Sample.reviewer (Sample.holding Sample.offline))
    as (w' & Hrun & Hget & Hother & Hsaved); [reflexivity|].
  exists w'. split; [exact Hrun|]. split; [exact Hget|].
  split; [by rewrite (Hother "retired")|].
  rewrite Hsaved. vm_compute in Hrun. by injection Hrun as <-.
Defined.

Lemma removeAgent_forgets_id_witness :
  exists w',
    Async.run (AgentManager.removeAgent "retired") (Sample.holding Sample.offline)
    = (Returned true, w')
    /\ AgentManager.getAgent "retired" w' = None
    /\ saved_agents w' = Some [].
Proof.
  destruct (removeAgent_forgets_id "retired" (Sample.holding Sample.offline))
    as (w' & Hrun & Hget & _ & Hsaved).
  - vm_compute. repeat constructor. set_solver.
  - exists w'. split; [exact Hrun|]. split; [exact Hget|].
    change (saved_agents w' = Some (AgentManager.getAgents w')) in Hsaved.
    rewrite Hsaved. vm_compute in Hrun. by injection Hrun as <-.
Defined.

Lemma loadAgents_restores_update_witness :
  let w1 := (Async.run (AgentManager.updateAgents
                          [Sample.ftpResource; Sample.reviewer; Sample.retired])
                       (Sample.blank Sample.offline)).2 in
  Async.run AgentManager.loadAgents (with_agents [] w1) = (Returned tt, w1)
  /\ AgentManager.getAgents w1 = [Sample.reviewer; Sample.retired].
Proof.
  cbv zeta. split; [|vm_compute; reflexivity].
  apply (loadAgents_restores_update
           [Sample.ftpResource; Sample.reviewer; Sample.retired]
           (Sample.blank Sample.offline)).
  vm_compute. reflexivity.
Defined.

Lemma processAgentFiles_keeps_agents_witness :
  exists processed w' issued,
    Async.run (RepositorySync.processAgentFiles [Sample.filed; Sample.templated]
                 "https://github.com/acme/widgets.git" "main")
              (Sample.blank Sample.patchy) = (Returned processed, w')
    /\ Forall2 Traffic.edited [Sample.filed; Sample.templated] processed
    /\ requests w' = (requests (Sample.blank Sample.patchy) ++ issued)%list
    /\ Forall (Traffic.namedFile "https://github.com/acme/widgets.git" "main") issued
    /\ Traffic.sameState (Sample.blank Sample.patchy) w'.
Proof.
  apply (processAgentFiles_keeps_agents [Sample.filed; Sample.templated]
           "https://github.com/acme/widgets.git" "main" (Sample.blank Sample.patchy)).
  repeat constructor.
Defined.

Lemma stored_agents_serve_failed_sync_witness :
  let w1 := (Async.run (AgentManager.updateAgents [Sample.emptyId; Sample.reviewer])
                       (Sample.blank Sample.offline)).2 in
  (Async.run RepositorySync.fetchAgents w1).1 = Returned (AgentManager.getAgents w1)
  /\ AgentManager.getAgents w1 = [Sample.reviewer].
Proof.
  cbv zeta. split; [|vm_compute; reflexivity].
  apply (stored_agents_serve_failed_sync [Sample.emptyId; Sample.reviewer]
           (Sample.blank Sample.offline)
           (Async.run (AgentManager.updateAgents [Sample.emptyId; Sample.reviewer])
                      (Sample.blank Sample.offline)).2
           "https://github.com/acme/widgets.git" "timeout of 15000ms exceeded");
    try (vm_compute; reflexivity).
  - repeat constructor.
  - apply Exists_cons_tl, Exists_cons_hd. reflexivity.
Defined.

Lemma clearAgents_leaves_no_fallback_witness :
  let w1 := (Async.run AgentManager.clearAgents (Sample.holding Sample.offline)).2 in
  AgentManager.getAgents w1 = []
  /\ saved_agents w1 = Some []
  /\ (Async.run RepositorySync.fetchAgents w1).1
     = Raised (AxiosError "timeout of 15000ms exceeded").
Proof.
  apply (clearAgents_leaves_no_fallback (Sample.holding Sample.offline)
           "https://github.com/acme/widgets.git"); vm_compute; reflexivity.
Defined.

Lemma buildCompletePrompt_skips_failed_witness :
  CopilotIntegration.buildCompletePrompt Sample.reviewer Sample.question
    [Sample.loadedDocs; Sample.staleDocs]
  = CopilotIntegration.buildCompletePrompt Sample.reviewer Sample.question
      [Sample.loadedDocs].
Proof.
  apply (buildCompletePrompt_skips_failed Sample.reviewer Sample.question
           [Sample.loadedDocs] Sample.staleDocs []); [reflexivity|discriminate].
Defined.

Lemma fetchAgents_asks_repository_only_witness :
  exists rest,
    requests (Async.run RepositorySync.fetchAgents
                (Sample.blank (Sample.serving [Sample.filed]))).2
    = RepositorySync.manifestRequest
        "https://raw.githubusercontent.com/acme/widgets/main/agents.json" :: rest
    /\ Forall (Traffic.namedFile "https://github.com/acme/widgets.git" "main") rest.
Proof.
  apply (fetchAgents_asks_repository_only
           (Sample.blank (Sample.serving [Sample.filed]))
           "https://github.com/acme/widgets.git"); reflexivity.
Defined.
